(** * Bilisuma AI image editor: the session logic of [App.tsx]

    The development has three parts.

    - [Base64]: the text encoding behind [FileReader.readAsDataURL], which
      [fileToBase64] wraps, together with the matching decoder.
    - [JS]: the JavaScript notions the handlers rely on
      ([String.prototype.split] with a one-character separator, truthiness of
      a nullable string, the outcome of a promise).
    - the component itself: the six [useState] cells as a record, every
      handler of [App] as a function on configurations, and the asynchronous
      continuations ([.then]/[.catch] of [handleImageUpload], the two [await]
      points of [handleGenerate]) as explicit pending tasks that the
      environment settles one at a time. *)

From Stdlib Require Import List Strings.String Strings.Ascii Strings.Byte.
From Stdlib Require Import NArith ZArith Bool Arith Lia Zify.
Import ListNotations.

Local Open Scope string_scope.

(* ===================================================================== *)
(** ** Base64 (RFC 4648, standard alphabet, with padding)                 *)
(* ===================================================================== *)

(** [fileToBase64] hands the file to the browser's [FileReader] and the
    repository has no decoder of its own, so the codec is not in the sources:
    [Base64.encode] and [Base64.decode] below are written after RFC 4648,
    the encoding [readAsDataURL] is specified to use. *)

Module Base64.

Local Open Scope N_scope.

Definition alphabet : string :=
  "ABCDEFGHIJKLMNOPQRSTUVWXYZabcdefghijklmnopqrstuvwxyz0123456789+/".

Definition pad : ascii := "="%char.

(** The character of a 6-bit group. *)
Definition sextet_char (n : N) : ascii :=
  match String.get (N.to_nat n) alphabet with
  | Some c => c
  | None => pad
  end.

(** The 6-bit group of a character of the alphabet. *)
Definition char_sextet (c : ascii) : option N :=
  let n := N_of_ascii c in
  if (65 <=? n) && (n <=? 90) then Some (n - 65)
  else if (97 <=? n) && (n <=? 122) then Some (n - 71)
  else if (48 <=? n) && (n <=? 57) then Some (n + 4)
  else if n =? 43 then Some 62
  else if n =? 47 then Some 63
  else None.

Definition byte_of_N (n : N) : byte :=
  match Byte.of_N (n mod 256) with
  | Some b => b
  | None => x00
  end.

Definition str4 (c0 c1 c2 c3 : ascii) (rest : string) : string :=
  String c0 (String c1 (String c2 (String c3 rest))).

(** Three input bytes make 24 bits, cut into four 6-bit groups. *)
Definition encode3 (a b c : byte) (rest : string) : string :=
  let n := Byte.to_N a * 65536 + Byte.to_N b * 256 + Byte.to_N c in
  str4 (sextet_char (n / 262144)) (sextet_char ((n / 4096) mod 64))
       (sextet_char ((n / 64) mod 64)) (sextet_char (n mod 64)) rest.

(** Two trailing bytes: 16 bits, two zero bits appended, one pad. *)
Definition encode2 (a b : byte) : string :=
  let n := (Byte.to_N a * 256 + Byte.to_N b) * 4 in
  str4 (sextet_char (n / 4096)) (sextet_char ((n / 64) mod 64))
       (sextet_char (n mod 64)) pad "".

(** One trailing byte: 8 bits, four zero bits appended, two pads. *)
Definition encode1 (a : byte) : string :=
  let n := Byte.to_N a * 16 in
  str4 (sextet_char (n / 64)) (sextet_char (n mod 64)) pad pad "".

(** Modelled from the spec: the Encoder's text-safe representation of the
    bytes (spec section 3, Base64); in the sources it is computed inside
    [FileReader.readAsDataURL], a browser built-in. *)
Fixpoint encode (l : list byte) : string :=
  match l with
  | [] => ""
  | [a] => encode1 a
  | [a; b] => encode2 a b
  | a :: b :: c :: rest => encode3 a b c (encode rest)
  end.

Definition decode3 (s0 s1 s2 s3 : N) : list byte :=
  let n := s0 * 262144 + s1 * 4096 + s2 * 64 + s3 in
  [byte_of_N (n / 65536); byte_of_N (n / 256); byte_of_N n].

Definition decode2 (s0 s1 s2 : N) : list byte :=
  let n := s0 * 4096 + s1 * 64 + s2 in
  [byte_of_N (n / 1024); byte_of_N (n / 4)].

Definition decode1 (s0 s1 : N) : list byte :=
  let n := s0 * 64 + s1 in
  [byte_of_N (n / 16)].

Definition is_pad (c : ascii) : bool := Ascii.eqb c pad.

Definition is_empty (s : string) : bool :=
  match s with
  | EmptyString => true
  | String _ _ => false
  end.

(** Modelled from the spec: the [decode] of the round-trip property (spec
    section 8, item 1), which has no counterpart in the sources. It reads
    four characters at a time; padding is accepted in the last group only,
    and any character outside the alphabet makes it fail. *)
Fixpoint decode (s : string) : option (list byte) :=
  match s with
  | EmptyString => Some []
  | String c0 (String c1 (String c2 (String c3 rest))) =>
      match char_sextet c0, char_sextet c1, char_sextet c2, char_sextet c3 with
      | Some s0, Some s1, Some s2, Some s3 =>
          match decode rest with
          | Some l => Some (decode3 s0 s1 s2 s3 ++ l)%list
          | None => None
          end
      | Some s0, Some s1, Some s2, None =>
          if is_pad c3 && is_empty rest then Some (decode2 s0 s1 s2) else None
      | Some s0, Some s1, None, None =>
          if is_pad c2 && is_pad c3 && is_empty rest
          then Some (decode1 s0 s1) else None
      | _, _, _, _ => None
      end
  | _ => None
  end.

End Base64.

(* ===================================================================== *)
(** ** JavaScript primitives used by the handlers                         *)
(* ===================================================================== *)

Module JS.

(** [s.split(sep)] for a one-character separator: the pieces between the
    separators, in order; the empty string splits into one empty piece. *)
Fixpoint split (sep : ascii) (s : string) : list string :=
  match s with
  | EmptyString => [""]
  | String c rest =>
      if Ascii.eqb c sep then "" :: split sep rest
      else match split sep rest with
           | piece :: pieces => String c piece :: pieces
           | [] => [String c ""]
           end
  end.

(** Truthiness of a string: every string but the empty one. *)
Definition truthy_string (s : string) : bool :=
  match s with
  | EmptyString => false
  | String _ _ => true
  end.

(** Truthiness of a [string | null]. *)
Definition truthy (v : option string) : bool :=
  match v with
  | Some s => truthy_string s
  | None => false
  end.

(** Outcome of a promise. *)
Inductive Settled (A : Type) : Type :=
| Fulfilled (value : A)
| Rejected.

Arguments Fulfilled {A} value.
Arguments Rejected {A}.

End JS.

(* ===================================================================== *)
(** ** Data of the component                                              *)
(* ===================================================================== *)

(** A [File] picked in the file input: its name, its declared media type and
    its bytes. *)
Record File : Type := mkFile {
  name : string;
  type : string;
  content : list byte
}.

(** The six [useState] cells of [App]. *)
Record State : Type := mkState {
  originalImage : option string;
  originalFile : option File;
  editedImage : option string;
  prompt : string;
  isLoading : bool;
  error : option string
}.

(** The values passed to [useState]. *)
Definition initialState : State :=
  {| originalImage := None; originalFile := None; editedImage := None;
     prompt := ""; isLoading := false; error := None |}.

Definition setOriginalImage (v : option string) (s : State) : State :=
  {| originalImage := v; originalFile := originalFile s;
     editedImage := editedImage s; prompt := prompt s;
     isLoading := isLoading s; error := error s |}.

Definition setOriginalFile (v : option File) (s : State) : State :=
  {| originalImage := originalImage s; originalFile := v;
     editedImage := editedImage s; prompt := prompt s;
     isLoading := isLoading s; error := error s |}.

Definition setEditedImage (v : option string) (s : State) : State :=
  {| originalImage := originalImage s; originalFile := originalFile s;
     editedImage := v; prompt := prompt s;
     isLoading := isLoading s; error := error s |}.

Definition setPrompt (v : string) (s : State) : State :=
  {| originalImage := originalImage s; originalFile := originalFile s;
     editedImage := editedImage s; prompt := v;
     isLoading := isLoading s; error := error s |}.

Definition setIsLoading (v : bool) (s : State) : State :=
  {| originalImage := originalImage s; originalFile := originalFile s;
     editedImage := editedImage s; prompt := prompt s;
     isLoading := v; error := error s |}.

Definition setError (v : option string) (s : State) : State :=
  {| originalImage := originalImage s; originalFile := originalFile s;
     editedImage := editedImage s; prompt := prompt s;
     isLoading := isLoading s; error := v |}.

(** The arguments of one call [editImageWithGemini(base64Data, mimeType,
    prompt)]. [base64Data] is [split(',')[1]], which is [undefined] ([None])
    when the split has fewer than two pieces. *)
Record EditCall : Type := mkEditCall {
  base64Data : option string;
  mimeType : string;
  callPrompt : string
}.

(** A suspended continuation of a handler. *)
Inductive Task : Type :=
| UploadReading (file : File)
    (** [handleImageUpload]: [fileToBase64(file).then(..).catch(..)] *)
| GenerateReading (file : File) (text : string)
    (** [handleGenerate] at [await fileToBase64(originalFile)], with the
        [originalFile] and [prompt] captured by the callback *)
| GenerateCalling (mime : string).
    (** [handleGenerate] at [await editImageWithGemini(..)], with its local
        [mimeType] *)

(** The component together with its environment: the state cells, the
    continuations not yet resumed, and the calls made so far to
    [editImageWithGemini]. *)
Record Config : Type := mkConfig {
  state : State;
  pending : list Task;
  calls : list EditCall
}.

Definition initialConfig : Config :=
  {| state := initialState; pending := []; calls := [] |}.

Definition withState (f : State -> State) (c : Config) : Config :=
  {| state := f (state c); pending := pending c; calls := calls c |}.

(** What the user and the environment can do. *)
Inductive Event : Type :=
| SelectImage (file : option File)
    (** change event of the file input; [file] is [event.target.files?.[0]] *)
| EditPrompt (text : string)
    (** change event of the prompt textarea *)
| Generate
    (** click on the generate button *)
| Reset
    (** click on Start Over *)
| FileRead (i : nat) (ok : bool)
    (** the [FileReader] of the [i]-th pending task fires [onload] ([true])
        or [onerror] ([false]) *)
| ServiceReply (i : nat) (reply : JS.Settled string).
    (** the promise of [editImageWithGemini] awaited by the [i]-th pending
        task settles *)

(* ===================================================================== *)
(** ** The encoder                                                        *)
(* ===================================================================== *)

(** [reader.result] after a successful [reader.readAsDataURL(file)]: a data
    URL carrying the declared media type and the Base64 text of the bytes.
    [FileReader] is a browser object; this follows the File API. *)
Definition readAsDataURL (file : File) : string :=
  "data:" ++ type file ++ ";base64," ++ Base64.encode (content file).

(** [fileToBase64(file)]: the promise resolves with [reader.result] on
    [onload] and rejects on [onerror]. *)
Definition fileToBase64 (file : File) (ok : bool) : JS.Settled string :=
  if ok then JS.Fulfilled (readAsDataURL file) else JS.Rejected.

(** [(await fileToBase64(originalFile)).split(',')[1]] *)
Definition base64Of (dataURL : string) : option string :=
  nth_error (JS.split ","%char dataURL) 1.

(** Reading the payload back: the Base64 text a data URL carries, decoded. *)
Definition payloadBytes (dataURL : string) : option (list byte) :=
  match base64Of dataURL with
  | Some text => Base64.decode text
  | None => None
  end.

(** No comma occurs in the string. *)
Fixpoint noComma (s : string) : bool :=
  match s with
  | EmptyString => true
  | String c rest => negb (Ascii.eqb c ","%char) && noComma rest
  end.

(* ===================================================================== *)
(** ** The handlers of [App]                                              *)
(* ===================================================================== *)

Definition uploadFailedMessage : string :=
  "Failed to load image. Please try another file.".

Definition generateFailedMessage : string :=
  "Failed to generate image. The model may be overloaded. Please try again later.".

Fixpoint removeAt {A : Type} (i : nat) (l : list A) : list A :=
  match i, l with
  | _, [] => []
  | O, _ :: rest => rest
  | S j, x :: rest => x :: removeAt j rest
  end.

Fixpoint replaceAt {A : Type} (i : nat) (y : A) (l : list A) : list A :=
  match i, l with
  | _, [] => []
  | O, _ :: rest => y :: rest
  | S j, x :: rest => x :: replaceAt j y rest
  end.

(** [handleImageUpload], up to the point where the read is started. *)
Definition handleImageUpload (file : option File) (c : Config) : Config :=
  match file with
  | Some f =>
      {| state := setOriginalFile (Some f)
                    (setEditedImage None (setError None (state c)));
         pending := (pending c ++ [UploadReading f])%list;
         calls := calls c |}
  | None => c
  end.

(** The [.then(setOriginalImage)] and [.catch(..)] of [handleImageUpload]. *)
Definition uploadSettled (r : JS.Settled string) (s : State) : State :=
  match r with
  | JS.Fulfilled url => setOriginalImage (Some url) s
  | JS.Rejected => setError (Some uploadFailedMessage) s
  end.

(** [handleGenerate], from its guard to the first [await]. *)
Definition handleGenerate (c : Config) : Config :=
  match originalFile (state c) with
  | None => c
  | Some f =>
      if negb (JS.truthy_string (prompt (state c))) then c
      else
        {| state := setEditedImage None
                      (setError None (setIsLoading true (state c)));
           pending := (pending c ++ [GenerateReading f (prompt (state c))])%list;
           calls := calls c |}
  end.

(** The [catch] block followed by the [finally] block. *)
Definition generateFailed (s : State) : State :=
  setIsLoading false (setError (Some generateFailedMessage) s).

(** [handleGenerate] resumed after [await fileToBase64(originalFile)] by the
    [i]-th task: on a value it calls the service and suspends again; on a
    rejection it runs [catch] and [finally]. *)
Definition generateAfterRead (i : nat) (f : File) (text : string)
    (r : JS.Settled string) (c : Config) : Config :=
  match r with
  | JS.Fulfilled url =>
      {| state := state c;
         pending := replaceAt i (GenerateCalling (type f)) (pending c);
         calls := (calls c ++ [ {| base64Data := base64Of url;
                                   mimeType := type f;
                                   callPrompt := text |} ])%list |}
  | JS.Rejected =>
      {| state := generateFailed (state c);
         pending := removeAt i (pending c);
         calls := calls c |}
  end.

(** [handleGenerate] resumed after [await editImageWithGemini(..)]: on a
    value, [setEditedImage] then [finally]; on a rejection, [catch] then
    [finally]. *)
Definition generateAfterCall (i : nat) (mime : string)
    (r : JS.Settled string) (c : Config) : Config :=
  match r with
  | JS.Fulfilled b64 =>
      {| state := setIsLoading false
                    (setEditedImage (Some ("data:" ++ mime ++ ";base64," ++ b64))
                       (state c));
         pending := removeAt i (pending c);
         calls := calls c |}
  | JS.Rejected =>
      {| state := generateFailed (state c);
         pending := removeAt i (pending c);
         calls := calls c |}
  end.

(** [isGenerateDisabled] *)
Definition isGenerateDisabled (s : State) : bool :=
  isLoading s || negb (JS.truthy_string (prompt s))
  || negb (JS.truthy (originalImage s)).

(** The [onClick] of Start Over. *)
Definition startOver (s : State) : State :=
  setError None
    (setPrompt ""
       (setEditedImage None
          (setOriginalFile None (setOriginalImage None s)))).

(** The left panel renders the uploader when [!originalImage], and the
    prompt, the generate button and Start Over otherwise. *)
Definition uploaderShown (s : State) : bool :=
  negb (JS.truthy (originalImage s)).

(** One event. An event on an element that is not rendered, or that is
    disabled, cannot fire and leaves the configuration as it is; so does the
    settling of a task that is not there. The rendered page is taken to
    follow the state cells without delay. *)
Definition step (c : Config) (e : Event) : Config :=
  match e with
  | SelectImage file =>
      if uploaderShown (state c) then handleImageUpload file c else c
  | EditPrompt text =>
      if negb (uploaderShown (state c)) && negb (isLoading (state c))
      then withState (setPrompt text) c else c
  | Generate =>
      if negb (uploaderShown (state c)) && negb (isGenerateDisabled (state c))
      then handleGenerate c else c
  | Reset =>
      if negb (uploaderShown (state c)) then withState startOver c else c
  | FileRead i ok =>
      match nth_error (pending c) i with
      | Some (UploadReading f) =>
          {| state := uploadSettled (fileToBase64 f ok) (state c);
             pending := removeAt i (pending c);
             calls := calls c |}
      | Some (GenerateReading f text) =>
          generateAfterRead i f text (fileToBase64 f ok) c
      | _ => c
      end
  | ServiceReply i reply =>
      match nth_error (pending c) i with
      | Some (GenerateCalling mime) => generateAfterCall i mime reply c
      | _ => c
      end
  end.

Definition run (c : Config) (es : list Event) : Config :=
  fold_left step es c.

(** A request is in flight while a continuation of [handleGenerate] is
    pending. *)
Definition isGenerateTask (t : Task) : bool :=
  match t with
  | UploadReading _ => false
  | GenerateReading _ _ => true
  | GenerateCalling _ => true
  end.

Definition countGenerate (l : list Task) : nat :=
  List.length (filter isGenerateTask l).

Arguments countGenerate : simpl never.

Definition weight (t : Task) : nat := if isGenerateTask t then 1 else 0.

Definition inFlight (c : Config) : nat := countGenerate (pending c).

(** A configuration the component can be in. *)
Definition reachable (c : Config) : Prop :=
  exists es, c = run initialConfig es.

(** [handleGenerate] run to its end with no other event in between: the read
    of the file settles ([ok]), and the call, when one was made, settles with
    [reply]. *)
Definition generateRun (ok : bool) (reply : JS.Settled string) (c : Config)
  : Config :=
  let i := List.length (pending c) in
  step (step (handleGenerate c) (FileRead i ok)) (ServiceReply i reply).

(** Whether event [e] resolves the request in flight in [c], and how: with
    the image to display, or with a failure (of the read or of the call). *)
Definition resolution (c : Config) (e : Event) : option (JS.Settled string) :=
  match e with
  | FileRead i false =>
      match nth_error (pending c) i with
      | Some (GenerateReading _ _) => Some JS.Rejected
      | _ => None
      end
  | ServiceReply i reply =>
      match nth_error (pending c) i with
      | Some (GenerateCalling mime) =>
          Some match reply with
               | JS.Fulfilled b64 =>
                   JS.Fulfilled ("data:" ++ mime ++ ";base64," ++ b64)
               | JS.Rejected => JS.Rejected
               end
      | _ => None
      end
  | _ => None
  end.

(** [isLoading] is true in [c] and after each of the events [es] played
    from [c]: one and the same request is in flight all along. *)
Fixpoint loadingThroughout (c : Config) (es : list Event) : bool :=
  isLoading (state c) &&
  match es with
  | [] => true
  | e :: rest => loadingThroughout (step c e) rest
  end.

(** In the session [es], the read of a selected image failed at a moment when
    the request now in flight was already in flight: [es] is [es1], then the
    [onerror] of a pending read of [handleImageUpload], then [es2], with
    [isLoading] true from the end of [es1] to the end of [es]. *)
Definition uploadFailedInFlight (es : list Event) : Prop :=
  exists es1 i f es2,
    es = (es1 ++ FileRead i false :: es2)%list /\
    nth_error (pending (run initialConfig es1)) i = Some (UploadReading f) /\
    loadingThroughout (run initialConfig es1) (FileRead i false :: es2) = true.

(** What holds of every configuration the component reaches. *)
Record Invariant (c : Config) : Prop := mkInvariant {
  inv_flight : inFlight c = if isLoading (state c) then 1%nat else 0%nat;
  inv_result : isLoading (state c) = true -> editedImage (state c) = None;
  inv_error : isLoading (state c) = true ->
              error (state c) = None \/
              error (state c) = Some uploadFailedMessage
}.

(** Two sample files. *)
Definition png : File := mkFile "a.png" "image/png" [x89; x50; x4e; x47].
Definition gif : File := mkFile "b.gif" "image/gif" [x47; x49; x46].

(** Sample sessions: an image and a prompt are in place; the generate
    button was clicked; the file was encoded and the call is out. *)
Definition readyTrace : list Event :=
  [SelectImage (Some png); FileRead 0 true; EditPrompt "add a hat"].

Definition readyConfig : Config := run initialConfig readyTrace.

Definition readingTrace : list Event := (readyTrace ++ [Generate])%list.

Definition readingConfig : Config := run initialConfig readingTrace.

Definition callingTrace : list Event :=
  (readingTrace ++ [FileRead 0 true])%list.

Definition callingConfig : Config := run initialConfig callingTrace.

(** While the call is out the user starts over and picks a file that cannot
    be read. *)
Definition staleTrace : list Event :=
  (callingTrace ++ [Reset; SelectImage (Some gif); FileRead 1 false])%list.

Definition staleConfig : Config := run initialConfig staleTrace.

(** A file is picked and its read fails. *)
Definition failedUploadConfig : Config :=
  run initialConfig [SelectImage (Some gif); FileRead 0 false].

(** Two files are picked in a row; both reads are pending. *)
Definition lateFailureBefore : Config :=
  run initialConfig [SelectImage (Some png); SelectImage (Some gif)].

(** Two files are picked in a row while the uploader is still shown; the
    first read succeeds, the user types a prompt, the second read fails. *)
Definition lateFailureConfig : Config :=
  run initialConfig
    [SelectImage (Some png); SelectImage (Some gif); FileRead 0 true;
     EditPrompt "add a hat"; FileRead 0 false].

(* ===================================================================== *)
(** ** What [App] renders                                                 *)
(* ===================================================================== *)

(** The children of the output box of the right panel, in the order of the
    four JSX expressions: the spinner, the error message, the edited image,
    the "Your creation will appear here" placeholder. *)
Inductive OutputElement : Type :=
| LoadingSpinner
| ErrorMessage (message : string)
| EditedImg (src : string)
| Placeholder.

(** [{isLoading && ..}], [{error && ..}], [{editedImage && !isLoading && ..}]
    and [{!isLoading && !error && !editedImage && ..}]; a falsy operand
    renders nothing. *)
Definition outputPanel (s : State) : list OutputElement :=
  ((if isLoading s then [LoadingSpinner] else []) ++
   (match error s with
    | Some message =>
        if JS.truthy_string message then [ErrorMessage message] else []
    | None => []
    end) ++
   (match editedImage s with
    | Some src =>
        if JS.truthy_string src && negb (isLoading s)
        then [EditedImg src] else []
    | None => []
    end) ++
   (if negb (isLoading s) && negb (JS.truthy (error s))
       && negb (JS.truthy (editedImage s))
    then [Placeholder] else []))%list.

(** The left panel: the uploader when [!originalImage]; otherwise the
    original image, the prompt textarea ([value], [disabled]), the generate
    button ([disabled], label) and Start Over. *)
Inductive LeftPanel : Type :=
| ImageUploader
| Controls (imgSrc : string) (promptValue : string) (promptDisabled : bool)
    (generateDisabled : bool) (generateLabel : string).

Definition leftPanel (s : State) : LeftPanel :=
  match originalImage s with
  | Some src =>
      if JS.truthy_string src
      then Controls src (prompt s) (isLoading s) (isGenerateDisabled s)
             (if isLoading s then "Generating..." else "Generate")
      else ImageUploader
  | None => ImageUploader
  end.

(* ===================================================================== *)
(** ** Measures and shapes used in the statements                         *)
(* ===================================================================== *)

(** [pieces.join(sep)] for a one-character separator. *)
Fixpoint joinWith (sep : ascii) (pieces : list string) : string :=
  match pieces with
  | [] => ""
  | [piece] => piece
  | piece :: rest => piece ++ String sep (joinWith sep rest)
  end.

(** The character does not occur in the string. *)
Fixpoint lacks (sep : ascii) (s : string) : bool :=
  match s with
  | EmptyString => true
  | String c rest => negb (Ascii.eqb c sep) && lacks sep rest
  end.

(** Clicks on the generate button in a sequence of events. *)
Definition isGenerateClick (e : Event) : bool :=
  match e with
  | Generate => true
  | _ => false
  end.

Definition countClicks (es : list Event) : nat :=
  List.length (filter isGenerateClick es).

(** Runs of [handleGenerate] that have not reached the call yet. *)
Definition isReadingTask (t : Task) : bool :=
  match t with
  | GenerateReading _ _ => true
  | _ => false
  end.

Definition countReading (l : list Task) : nat :=
  List.length (filter isReadingTask l).

Arguments countReading : simpl never.

(** A call as [handleGenerate] builds it from a file and a prompt. *)
Definition callFor (f : File) (text : string) : EditCall :=
  {| base64Data := base64Of (readAsDataURL f);
     mimeType := type f;
     callPrompt := text |}.

Definition wellFormedCall (k : EditCall) : Prop :=
  exists f text, text <> "" /\ k = callFor f text.

Definition wellFormedTask (t : Task) : Prop :=
  match t with
  | GenerateReading _ text => text <> ""
  | _ => True
  end.

(** The values the cells take in the configurations the component
    reaches. *)
Record Shape (c : Config) : Prop := mkShape {
  shape_error :
    error (state c) = None \/
    error (state c) = Some uploadFailedMessage \/
    error (state c) = Some generateFailedMessage;
  shape_failed :
    error (state c) = Some generateFailedMessage ->
    isLoading (state c) = false /\ editedImage (state c) = None;
  shape_result :
    editedImage (state c) = None \/
    exists mime b64,
      editedImage (state c) = Some ("data:" ++ mime ++ ";base64," ++ b64);
  shape_image :
    originalImage (state c) = None \/
    exists f, originalImage (state c) = Some (readAsDataURL f);
  shape_calls : Forall wellFormedCall (calls c);
  shape_pending : Forall wellFormedTask (pending c)
}.

(* ===================================================================== *)
(** ** Facts about the codec                                              *)
(* ===================================================================== *)

Module Base64Facts.

Import Base64.
Local Open Scope N_scope.

Ltac n_arith := zify; Z.to_euclidean_division_equations; lia.

Lemma sextet_roundtrip (n : N) :
  n < 64 -> char_sextet (sextet_char n) = Some n.
Proof.
  intros Hn.
  destruct n as [|p]; [reflexivity|].
  do 6 (try destruct p as [p|p|]); try reflexivity; exfalso; lia.
Qed.

Lemma char_sextet_pad : char_sextet pad = None.
Proof. reflexivity. Qed.

Lemma byte_of_N_to_N (b : byte) : byte_of_N (Byte.to_N b) = b.
Proof.
  unfold byte_of_N.
  pose proof (Byte.to_N_bounded b) as Hb.
  replace (Byte.to_N b mod 256) with (Byte.to_N b) by n_arith.
  now rewrite Byte.of_to_N.
Qed.

Lemma byte_of_N_eq (n : N) (b : byte) :
  n mod 256 = Byte.to_N b -> byte_of_N n = b.
Proof.
  intros H. unfold byte_of_N. rewrite H. now rewrite Byte.of_to_N.
Qed.

Lemma decode_str4 c0 c1 c2 c3 rest :
  decode (str4 c0 c1 c2 c3 rest) =
  match char_sextet c0, char_sextet c1, char_sextet c2, char_sextet c3 with
  | Some s0, Some s1, Some s2, Some s3 =>
      match decode rest with
      | Some l => Some (decode3 s0 s1 s2 s3 ++ l)%list
      | None => None
      end
  | Some s0, Some s1, Some s2, None =>
      if is_pad c3 && is_empty rest then Some (decode2 s0 s1 s2) else None
  | Some s0, Some s1, None, None =>
      if is_pad c2 && is_pad c3 && is_empty rest
      then Some (decode1 s0 s1) else None
  | _, _, _, _ => None
  end.
Proof. reflexivity. Qed.

(** A full group of three bytes is read back, whatever follows it. *)
Lemma decode_encode3 (a b c : byte) (rest : string) :
  decode (encode3 a b c rest) =
  match decode rest with
  | Some l => Some (a :: b :: c :: l)
  | None => None
  end.
Proof.
  unfold encode3. rewrite decode_str4.
  pose proof (Byte.to_N_bounded a) as Ha.
  pose proof (Byte.to_N_bounded b) as Hb.
  pose proof (Byte.to_N_bounded c) as Hc.
  set (n := Byte.to_N a * 65536 + Byte.to_N b * 256 + Byte.to_N c).
  rewrite !sextet_roundtrip by (subst n; n_arith).
  destruct (decode rest) as [l|]; [|reflexivity].
  unfold decode3.
  rewrite (byte_of_N_eq _ a) by (subst n; n_arith).
  rewrite (byte_of_N_eq _ b) by (subst n; n_arith).
  rewrite (byte_of_N_eq _ c) by (subst n; n_arith).
  reflexivity.
Qed.

Lemma decode_encode2 (a b : byte) : decode (encode2 a b) = Some [a; b].
Proof.
  unfold encode2. rewrite decode_str4.
  pose proof (Byte.to_N_bounded a) as Ha.
  pose proof (Byte.to_N_bounded b) as Hb.
  set (n := (Byte.to_N a * 256 + Byte.to_N b) * 4).
  rewrite !sextet_roundtrip by (subst n; n_arith).
  rewrite char_sextet_pad. cbn [is_pad is_empty andb].
  replace (Ascii.eqb pad pad) with true by (symmetry; apply Ascii.eqb_refl).
  cbn [andb]. unfold decode2.
  rewrite (byte_of_N_eq _ a) by (subst n; n_arith).
  rewrite (byte_of_N_eq _ b) by (subst n; n_arith).
  reflexivity.
Qed.

Lemma decode_encode1 (a : byte) : decode (encode1 a) = Some [a].
Proof.
  unfold encode1. rewrite decode_str4.
  pose proof (Byte.to_N_bounded a) as Ha.
  set (n := Byte.to_N a * 16).
  rewrite !sextet_roundtrip by (subst n; n_arith).
  rewrite char_sextet_pad. cbn [is_pad is_empty andb].
  replace (Ascii.eqb pad pad) with true by (symmetry; apply Ascii.eqb_refl).
  cbn [andb]. unfold decode1.
  rewrite (byte_of_N_eq _ a) by (subst n; n_arith).
  reflexivity.
Qed.

(** Induction three bytes at a time, the way [encode] recurses. *)
Lemma list_ind3 {A : Type} (P : list A -> Prop) :
  P [] ->
  (forall a, P [a]) ->
  (forall a b, P [a; b]) ->
  (forall a b c rest, P rest -> P (a :: b :: c :: rest)) ->
  forall l, P l.
Proof.
  intros H0 H1 H2 H3.
  fix IH 1.
  intros [|a [|b [|c rest]]].
  - exact H0.
  - apply H1.
  - apply H2.
  - apply H3, IH.
Qed.

Lemma decode_encode (l : list byte) : decode (encode l) = Some l.
Proof.
  induction l as [|a|a b|a b c rest IH] using list_ind3.
  - reflexivity.
  - apply decode_encode1.
  - apply decode_encode2.
  - change (encode (a :: b :: c :: rest)) with (encode3 a b c (encode rest)).
    now rewrite decode_encode3, IH.
Qed.

End Base64Facts.

(* ===================================================================== *)
(** ** Facts about [split] and the data URL                               *)
(* ===================================================================== *)

Section DataURL.

Lemma split_noComma (s : string) :
  noComma s = true -> JS.split ","%char s = [s].
Proof.
  induction s as [|c rest IH]; intros H; [reflexivity|].
  cbn [noComma] in H. apply andb_true_iff in H as [Hc Hrest].
  apply negb_true_iff in Hc.
  cbn [JS.split]. rewrite Hc, (IH Hrest). reflexivity.
Qed.

Lemma split_at_first_comma (p q : string) :
  noComma p = true ->
  JS.split ","%char (p ++ String ","%char q) = p :: JS.split ","%char q.
Proof.
  induction p as [|c rest IH]; intros H.
  - reflexivity.
  - cbn [noComma] in H. apply andb_true_iff in H as [Hc Hrest].
    apply negb_true_iff in Hc.
    cbn [append JS.split]. rewrite Hc, (IH Hrest). reflexivity.
Qed.

Lemma string_app_assoc (p q r : string) : (p ++ q) ++ r = p ++ (q ++ r).
Proof.
  induction p as [|c rest IH]; [reflexivity|].
  cbn [append]. now rewrite IH.
Qed.

Lemma noComma_app (p q : string) :
  noComma (p ++ q) = noComma p && noComma q.
Proof.
  induction p as [|c rest IH]; [reflexivity|].
  cbn [append noComma]. rewrite IH. apply andb_assoc.
Qed.

Lemma sextet_char_noComma (n : N) :
  Ascii.eqb (Base64.sextet_char n) ","%char = false.
Proof.
  unfold Base64.sextet_char.
  destruct (String.get (N.to_nat n) Base64.alphabet) as [c|] eqn:E;
    [|reflexivity].
  assert (Hall : forall i ch, String.get i Base64.alphabet = Some ch ->
                              Ascii.eqb ch ","%char = false).
  { clear. intros i ch.
    do 64 (destruct i as [|i]; [intros [= <-]; reflexivity|]).
    discriminate. }
  exact (Hall _ _ E).
Qed.

Lemma encode_noComma (l : list byte) : noComma (Base64.encode l) = true.
Proof.
  induction l as [|a|a b|a b c rest IH] using Base64Facts.list_ind3.
  - reflexivity.
  - unfold Base64.encode, Base64.encode1, Base64.str4. cbn [noComma].
    now rewrite !sextet_char_noComma.
  - unfold Base64.encode, Base64.encode2, Base64.str4. cbn [noComma].
    now rewrite !sextet_char_noComma.
  - change (Base64.encode (a :: b :: c :: rest))
      with (Base64.encode3 a b c (Base64.encode rest)).
    unfold Base64.encode3, Base64.str4. cbn [noComma].
    now rewrite !sextet_char_noComma, IH.
Qed.

(** What [handleGenerate] extracts with [split(',')[1]] is the Base64 text of
    the file, as long as the declared media type has no comma. *)
Lemma base64Of_readAsDataURL (file : File) :
  noComma (type file) = true ->
  base64Of (readAsDataURL file) = Some (Base64.encode (content file)).
Proof.
  intros H. unfold base64Of, readAsDataURL.
  change (";base64," ++ Base64.encode (content file))
    with (";base64" ++ String ","%char (Base64.encode (content file))).
  rewrite <- !string_app_assoc.
  rewrite split_at_first_comma.
  - rewrite split_noComma by apply encode_noComma. reflexivity.
  - rewrite !noComma_app, H. reflexivity.
Qed.

Lemma payloadBytes_readAsDataURL (file : File) :
  noComma (type file) = true ->
  payloadBytes (readAsDataURL file) = Some (content file).
Proof.
  intros H. unfold payloadBytes.
  rewrite (base64Of_readAsDataURL file H).
  apply Base64Facts.decode_encode.
Qed.

End DataURL.

(* ===================================================================== *)
(** ** Pending tasks                                                      *)
(* ===================================================================== *)

Section Tasks.

Lemma countGenerate_cons (t : Task) (l : list Task) :
  countGenerate (t :: l) = weight t + countGenerate l.
Proof.
  unfold countGenerate, weight. cbn [filter].
  destruct (isGenerateTask t); reflexivity.
Qed.

Lemma countGenerate_snoc (l : list Task) (t : Task) :
  countGenerate (l ++ [t])%list = countGenerate l + weight t.
Proof.
  induction l as [|x l IH].
  - cbn [app]. rewrite countGenerate_cons. unfold countGenerate. cbn [filter List.length]. lia.
  - cbn [app]. rewrite !countGenerate_cons, IH. lia.
Qed.

Lemma countGenerate_removeAt (l : list Task) (i : nat) (t : Task) :
  nth_error l i = Some t ->
  countGenerate l = countGenerate (removeAt i l) + weight t.
Proof.
  revert i. induction l as [|x l IH]; intros [|i] H; try discriminate.
  - injection H as ->. cbn [removeAt]. rewrite countGenerate_cons. lia.
  - cbn [nth_error] in H. cbn [removeAt].
    rewrite !countGenerate_cons, (IH i H). lia.
Qed.

Lemma countGenerate_replaceAt (l : list Task) (i : nat) (t t' : Task) :
  nth_error l i = Some t ->
  countGenerate (replaceAt i t' l) + weight t = countGenerate l + weight t'.
Proof.
  revert i. induction l as [|x l IH]; intros [|i] H; try discriminate.
  - injection H as ->. cbn [replaceAt]. rewrite !countGenerate_cons. lia.
  - cbn [nth_error] in H. cbn [replaceAt].
    rewrite !countGenerate_cons. specialize (IH i H). lia.
Qed.

Lemma nth_error_snoc {A : Type} (l : list A) (x : A) :
  nth_error (l ++ [x])%list (List.length l) = Some x.
Proof. induction l as [|y l IH]; [reflexivity | exact IH]. Qed.

Lemma removeAt_snoc {A : Type} (l : list A) (x : A) :
  removeAt (List.length l) (l ++ [x])%list = l.
Proof.
  induction l as [|y l IH]; [reflexivity|].
  cbn [List.length app removeAt]. now rewrite IH.
Qed.

Lemma replaceAt_snoc {A : Type} (l : list A) (x y : A) :
  replaceAt (List.length l) y (l ++ [x])%list = (l ++ [y])%list.
Proof.
  induction l as [|z l IH]; [reflexivity|].
  cbn [List.length app replaceAt]. now rewrite IH.
Qed.

End Tasks.

(* ===================================================================== *)
(** ** The invariant of the component                                     *)
(* ===================================================================== *)

Section Reachable.

Lemma run_snoc (c : Config) (es : list Event) (e : Event) :
  run c (es ++ [e])%list = step (run c es) e.
Proof. unfold run. now rewrite fold_left_app. Qed.

Lemma Invariant_initial : Invariant initialConfig.
Proof. split; cbn; [reflexivity | discriminate | discriminate]. Qed.

Lemma Invariant_handleImageUpload (file : option File) (c : Config) :
  Invariant c -> Invariant (handleImageUpload file c).
Proof.
  intros [Hf Hr He]. destruct file as [f|]; [|now split].
  split; cbn.
  - unfold inFlight in *. cbn. rewrite countGenerate_snoc, Hf. cbn. lia.
  - reflexivity.
  - now left.
Qed.

Lemma Invariant_handleGenerate (c : Config) :
  isLoading (state c) = false -> Invariant c -> Invariant (handleGenerate c).
Proof.
  intros Hl [Hf Hr He]. unfold handleGenerate.
  destruct (originalFile (state c)) as [f|]; [|now split].
  destruct (JS.truthy_string (prompt (state c))); cbn [negb]; [|now split].
  split; cbn.
  - unfold inFlight in *. cbn. rewrite countGenerate_snoc, Hf, Hl. reflexivity.
  - reflexivity.
  - now left.
Qed.

Lemma Invariant_startOver (c : Config) :
  Invariant c -> Invariant (withState startOver c).
Proof.
  intros [Hf Hr He]. split; cbn.
  - exact Hf.
  - reflexivity.
  - now left.
Qed.

(** A pending continuation of [handleGenerate] means the flag is up, and it
    is the only such continuation. *)
Lemma pending_generate_loading (c : Config) (i : nat) (t : Task) :
  Invariant c -> nth_error (pending c) i = Some t -> isGenerateTask t = true ->
  isLoading (state c) = true /\ countGenerate (removeAt i (pending c)) = 0.
Proof.
  intros [Hf _ _] Hi Ht.
  pose proof (countGenerate_removeAt _ _ _ Hi) as Hc.
  unfold inFlight in Hf. unfold weight in Hc. rewrite Ht in Hc.
  destruct (isLoading (state c)); [split; [reflexivity|lia] | lia].
Qed.

Lemma Invariant_step (c : Config) (e : Event) :
  Invariant c -> Invariant (step c e).
Proof.
  intros Hc. destruct e as [file|text| | |i ok|i reply]; cbn [step].
  - destruct (uploaderShown (state c)); [|exact Hc].
    now apply Invariant_handleImageUpload.
  - destruct (negb (uploaderShown (state c)) && negb (isLoading (state c)));
      [|exact Hc].
    destruct Hc as [Hf Hr He]. now split.
  - destruct (negb (uploaderShown (state c))
              && negb (isGenerateDisabled (state c))) eqn:E; [|exact Hc].
    apply andb_true_iff in E as [_ E]. apply negb_true_iff in E.
    unfold isGenerateDisabled in E.
    apply orb_false_iff in E as [E _]. apply orb_false_iff in E as [E _].
    now apply Invariant_handleGenerate.
  - destruct (negb (uploaderShown (state c))); [|exact Hc].
    now apply Invariant_startOver.
  - destruct (nth_error (pending c) i) as [[f|f text|mime]|] eqn:Hi;
      try exact Hc.
    + pose proof (countGenerate_removeAt _ _ _ Hi) as Hn.
      cbn in Hn. destruct Hc as [Hf Hr He].
      destruct ok; split; cbn; unfold inFlight in *; cbn;
        try (rewrite <- Hf; lia); try assumption.
      intros _. now right.
    + destruct (pending_generate_loading c i _ Hc Hi eq_refl) as [Hl H0].
      pose proof (countGenerate_replaceAt _ _ _ (GenerateCalling (type f)) Hi)
        as Hn.
      cbn in Hn. destruct Hc as [Hf Hr He].
      destruct ok; split; cbn; unfold inFlight in *; cbn;
        try assumption; try discriminate.
      rewrite <- Hf. lia.
  - destruct (nth_error (pending c) i) as [[f|f text|mime]|] eqn:Hi;
      try exact Hc.
    destruct (pending_generate_loading c i _ Hc Hi eq_refl) as [Hl H0].
    destruct reply; split; cbn; unfold inFlight; cbn;
      try assumption; try discriminate.
Qed.

Lemma Invariant_run (c : Config) (es : list Event) :
  Invariant c -> Invariant (run c es).
Proof.
  revert c. induction es as [|e es IH]; intros c Hc; [exact Hc|].
  cbn [run fold_left]. apply (IH (step c e)). now apply Invariant_step.
Qed.

Lemma reachable_Invariant (c : Config) : reachable c -> Invariant c.
Proof. intros [es ->]. apply Invariant_run, Invariant_initial. Qed.

Lemma reachable_step (c : Config) (e : Event) :
  reachable c -> reachable (step c e).
Proof.
  intros [es ->]. exists (es ++ [e])%list. symmetry. apply run_snoc.
Qed.

End Reachable.

(* ===================================================================== *)
(** ** The session: guards of [Generate]                                  *)
(* ===================================================================== *)

Section GenerateGuards.

(** C1. A click on the generate button while a request is in flight
    ([isLoading] is true) does nothing: the state cells, the pending
    continuations and the calls made to the edit service are all as before,
    in every configuration. The button is disabled by [isGenerateDisabled]. *)
Theorem generate_while_loading_is_noop (c : Config) :
  isLoading (state c) = true -> step c Generate = c.
Proof.
  intros H. cbn [step]. unfold isGenerateDisabled. rewrite H.
  cbn [orb negb]. now rewrite andb_false_r.
Qed.

Lemma generate_while_loading_is_noop_witness :
  isLoading (state readingConfig) = true /\
  step readingConfig Generate = readingConfig.
Proof.
  split; [vm_compute; reflexivity|].
  apply (generate_while_loading_is_noop readingConfig).
  vm_compute. reflexivity.
Defined.

(** The guard against a second request is the disabled button alone:
    [handleGenerate] does not look at [isLoading]. *)
Remark handleGenerate_does_not_test_isLoading :
  isLoading (state readingConfig) = true /\
  pending (handleGenerate readingConfig) =
    (pending readingConfig ++ [GenerateReading png "add a hat"])%list.
Proof. split; vm_compute; reflexivity. Qed.

Lemma truthy_string_empty (s : string) :
  JS.truthy_string s = false <-> s = "".
Proof. destruct s; split; intros H; try reflexivity; discriminate. Qed.

(** C2. With no file selected or with an empty prompt, [handleGenerate]
    returns at its guard, and so does a click on the generate button: no call
    to the edit service, no continuation, no change of state. *)
Theorem generate_without_file_or_prompt_is_noop (c : Config) :
  originalFile (state c) = None \/ prompt (state c) = "" ->
  handleGenerate c = c /\ step c Generate = c.
Proof.
  intros H.
  assert (Hh : handleGenerate c = c).
  { unfold handleGenerate. destruct H as [H|H].
    - now rewrite H.
    - destruct (originalFile (state c)); [|reflexivity]. now rewrite H. }
  split; [exact Hh|].
  cbn [step]. rewrite Hh. now destruct (_ && _).
Qed.

Lemma generate_without_file_or_prompt_is_noop_witness :
  (originalFile (state initialConfig) = None \/
   prompt (state initialConfig) = "") /\
  handleGenerate initialConfig = initialConfig /\
  step initialConfig Generate = initialConfig.
Proof.
  split; [left; reflexivity|].
  apply (generate_without_file_or_prompt_is_noop initialConfig).
  left. reflexivity.
Defined.

(** The button also needs the displayed image: without [originalImage] it is
    not even rendered. *)
Lemma generate_without_image_is_noop (c : Config) :
  originalImage (state c) = None -> step c Generate = c.
Proof.
  intros H. cbn [step]. unfold uploaderShown. now rewrite H.
Qed.

End GenerateGuards.

(* ===================================================================== *)
(** ** The session: a request from dispatch to resolution                 *)
(* ===================================================================== *)

Section GenerateLifecycle.

Lemma truthy_string_nonempty (s : string) :
  s <> "" -> JS.truthy_string s = true.
Proof. destruct s; [congruence | reflexivity]. Qed.

(** Past its guard, [handleGenerate] raises the flag, clears result and
    error, and suspends on the read of the file. *)
Lemma handleGenerate_dispatch (c : Config) (f : File) :
  originalFile (state c) = Some f -> prompt (state c) <> "" ->
  handleGenerate c =
    {| state := setEditedImage None
                  (setError None (setIsLoading true (state c)));
       pending := (pending c ++ [GenerateReading f (prompt (state c))])%list;
       calls := calls c |}.
Proof.
  intros Hf Hp. unfold handleGenerate.
  now rewrite Hf, (truthy_string_nonempty _ Hp).
Qed.

(** The whole of an uninterrupted run, by outcome. *)
Lemma generateRun_read_failed (c : Config) (f : File)
    (reply : JS.Settled string) :
  originalFile (state c) = Some f -> prompt (state c) <> "" ->
  generateRun false reply c =
    {| state := generateFailed
                  (setEditedImage None
                     (setError None (setIsLoading true (state c))));
       pending := pending c;
       calls := calls c |}.
Proof.
  intros Hf Hp. unfold generateRun.
  rewrite (handleGenerate_dispatch c f Hf Hp).
  cbn [step pending]. rewrite nth_error_snoc.
  cbn [fileToBase64 generateAfterRead pending state calls].
  rewrite removeAt_snoc.
  cbn [step pending].
  now rewrite (proj2 (nth_error_None (pending c) _) (Nat.le_refl _)).
Qed.

Lemma generateRun_read_ok (c : Config) (f : File)
    (reply : JS.Settled string) :
  originalFile (state c) = Some f -> prompt (state c) <> "" ->
  generateRun true reply c =
    {| state :=
         match reply with
         | JS.Fulfilled b64 =>
             setIsLoading false
               (setEditedImage
                  (Some ("data:" ++ type f ++ ";base64," ++ b64))
                  (setEditedImage None
                     (setError None (setIsLoading true (state c)))))
         | JS.Rejected =>
             generateFailed
               (setEditedImage None
                  (setError None (setIsLoading true (state c))))
         end;
       pending := pending c;
       calls := (calls c ++
                 [ {| base64Data := base64Of (readAsDataURL f);
                      mimeType := type f;
                      callPrompt := prompt (state c) |} ])%list |}.
Proof.
  intros Hf Hp. unfold generateRun.
  rewrite (handleGenerate_dispatch c f Hf Hp).
  cbn [step pending]. rewrite nth_error_snoc.
  cbn [fileToBase64 generateAfterRead pending state calls].
  rewrite replaceAt_snoc, nth_error_snoc.
  unfold generateAfterCall. cbn [pending state calls].
  rewrite removeAt_snoc.
  destruct reply; reflexivity.
Qed.

(** C3, counterexample. The request of [callingConfig] is in flight; the
    user starts over and picks a file whose read fails, which sets the error;
    then the service answers with an image. The resolution sets the result
    and leaves the error: both fields are set. *)
Lemma stale_success_sets_result_beside_error :
  reachable staleConfig /\
  resolution staleConfig (ServiceReply 0 (JS.Fulfilled "QUJD")) =
    Some (JS.Fulfilled "data:image/png;base64,QUJD") /\
  editedImage (state (step staleConfig (ServiceReply 0 (JS.Fulfilled "QUJD"))))
    = Some "data:image/png;base64,QUJD" /\
  error (state (step staleConfig (ServiceReply 0 (JS.Fulfilled "QUJD"))))
    = Some uploadFailedMessage.
Proof.
  split; [exists staleTrace; reflexivity|].
  repeat apply conj; vm_compute; reflexivity.
Qed.

Lemma run_app (c : Config) (es es' : list Event) :
  run c (es ++ es')%list = run (run c es) es'.
Proof. unfold run. apply fold_left_app. Qed.

Lemma loadingThroughout_snoc (c : Config) (es : list Event) (e : Event) :
  loadingThroughout c (es ++ [e])%list =
  loadingThroughout c es && isLoading (state (run c (es ++ [e])%list)).
Proof.
  revert c. induction es as [|a es IH]; intros c.
  - cbn. now rewrite !andb_true_r.
  - cbn [app loadingThroughout]. rewrite (IH (step c a)).
    cbn [run fold_left]. now rewrite andb_assoc.
Qed.

(** While a request is in flight, an event leaves an error behind only if
    the error was there already or the event is the failed read of a
    selected image. *)
Lemma step_error_in_flight (c : Config) (e : Event) :
  isLoading (state (step c e)) = true ->
  error (state (step c e)) <> None ->
  isLoading (state c) = true /\
  (error (state (step c e)) = error (state c) \/
   exists i f, e = FileRead i false /\
               nth_error (pending c) i = Some (UploadReading f)).
Proof.
  destruct e as [file|text| | |i ok|i reply]; cbn [step].
  - destruct (uploaderShown (state c)); [|now auto].
    destruct file; cbn; [congruence | now auto].
  - destruct (_ && _); cbn; now auto.
  - destruct (_ && _); [|now auto]. unfold handleGenerate.
    destruct (originalFile (state c)); [|now auto].
    destruct (negb _); cbn; [now auto | congruence].
  - destruct (negb _); cbn; [congruence | now auto].
  - destruct (nth_error (pending c) i) as [[f|f text|mime]|] eqn:Hi;
      try (now auto).
    + destruct ok; cbn; intros Hl He; (split; [exact Hl|]);
        [now left | right; now exists i, f].
    + destruct ok; cbn; [now auto | congruence].
  - destruct (nth_error (pending c) i) as [[f|f text|mime]|] eqn:Hi;
      try (now auto).
    destruct reply; cbn; congruence.
Qed.

(** An error standing beside a request in flight comes from a read of a
    selected image that failed during that very flight. *)
Lemma error_in_flight_from_upload (es : list Event) :
  isLoading (state (run initialConfig es)) = true ->
  error (state (run initialConfig es)) <> None ->
  uploadFailedInFlight es.
Proof.
  induction es as [|e es IH] using rev_ind; [cbn; discriminate|].
  rewrite run_snoc. intros Hl He.
  destruct (step_error_in_flight _ _ Hl He)
    as [Hl0 [Heq|(i & f & -> & Hi)]].
  - rewrite Heq in He.
    destruct (IH Hl0 He) as (es1 & i & f & es2 & Hes & Hi & Ht).
    exists es1, i, f, (es2 ++ [e])%list. split; [|split; [exact Hi|]].
    + rewrite Hes, <- app_assoc. reflexivity.
    + change (FileRead i false :: es2 ++ [e])%list
        with ((FileRead i false :: es2) ++ [e])%list.
      rewrite loadingThroughout_snoc, Ht. cbn [andb].
      rewrite <- run_app, app_assoc, <- Hes, run_snoc. exact Hl.
  - exists es, i, f, []. split; [reflexivity|]. split; [exact Hi|].
    cbn [loadingThroughout]. now rewrite Hl0, Hl.
Qed.

(** C3, as amended. In every configuration [c] the component reaches, by
    any session [es]:
    - a dispatch of [handleGenerate] clears result and error;
    - a resolution by failure (of the read or of the call) sets the error to
      the generate message and leaves the result absent;
    - a resolution by success sets the result and does not touch the error,
      which is then either absent or the upload message, and the upload
      message only if the read of a selected image failed while this very
      request was in flight;
    - a run of [handleGenerate] with no other event in between ends, on
      success, with the result set and the error absent. *)
Theorem generate_result_and_error (c : Config) (es : list Event) :
  c = run initialConfig es ->
  (forall f, originalFile (state c) = Some f -> prompt (state c) <> "" ->
     editedImage (state (handleGenerate c)) = None /\
     error (state (handleGenerate c)) = None) /\
  (forall e, resolution c e = Some JS.Rejected ->
     error (state (step c e)) = Some generateFailedMessage /\
     editedImage (state (step c e)) = None) /\
  (forall e url, resolution c e = Some (JS.Fulfilled url) ->
     editedImage (state (step c e)) = Some url /\
     error (state (step c e)) = error (state c) /\
     (error (state c) = None \/
      error (state c) = Some uploadFailedMessage /\
      uploadFailedInFlight es)) /\
  (forall f b64, originalFile (state c) = Some f -> prompt (state c) <> "" ->
     editedImage (state (generateRun true (JS.Fulfilled b64) c)) =
       Some ("data:" ++ type f ++ ";base64," ++ b64) /\
     error (state (generateRun true (JS.Fulfilled b64) c)) = None).
Proof.
  intros Hc.
  assert (Hinv : Invariant c)
    by (rewrite Hc; apply Invariant_run, Invariant_initial).
  split; [|split; [|split]].
  - intros f Hf Hp. rewrite (handleGenerate_dispatch c f Hf Hp).
    split; reflexivity.
  - intros e He. destruct e as [file|text| | |i ok|i reply];
      cbn [resolution] in He; try discriminate.
    + destruct ok; [discriminate|].
      destruct (nth_error (pending c) i) as [[f|f text|mime]|] eqn:Hi;
        try discriminate.
      destruct (pending_generate_loading c i _ Hinv Hi eq_refl) as [Hl _].
      cbn [step]. rewrite Hi. cbn. split; [reflexivity|].
      now apply (inv_result c Hinv).
    + destruct (nth_error (pending c) i) as [[f|f text|mime]|] eqn:Hi;
        try discriminate.
      destruct reply as [b64|]; [discriminate|].
      destruct (pending_generate_loading c i _ Hinv Hi eq_refl) as [Hl _].
      cbn [step]. rewrite Hi. cbn. split; [reflexivity|].
      now apply (inv_result c Hinv).
  - intros e url He. destruct e as [file|text| | |i ok|i reply];
      cbn [resolution] in He; try discriminate.
    + destruct ok; [discriminate|].
      destruct (nth_error (pending c) i) as [[f|f text|mime]|];
        discriminate.
    + destruct (nth_error (pending c) i) as [[f|f text|mime]|] eqn:Hi;
        try discriminate.
      destruct reply as [b64|]; [|discriminate].
      injection He as <-.
      destruct (pending_generate_loading c i _ Hinv Hi eq_refl) as [Hl _].
      cbn [step]. rewrite Hi. cbn. split; [reflexivity|].
      split; [reflexivity|].
      destruct (error (state c)) as [m|] eqn:Em; [right | now left].
      assert (Hup : uploadFailedInFlight es).
      { apply error_in_flight_from_upload; rewrite <- Hc;
          [exact Hl | rewrite Em; discriminate]. }
      split; [|exact Hup].
      destruct (inv_error c Hinv Hl) as [E|E]; rewrite Em in E;
        [discriminate | exact E].
  - intros f b64 Hf Hp. rewrite (generateRun_read_ok c f _ Hf Hp).
    split; reflexivity.
Qed.

Lemma generate_result_and_error_witness :
  staleConfig = run initialConfig staleTrace /\
  editedImage (state (step staleConfig (ServiceReply 0 (JS.Fulfilled "QUJD"))))
    = Some "data:image/png;base64,QUJD" /\
  error (state staleConfig) = Some uploadFailedMessage /\
  uploadFailedInFlight staleTrace.
Proof.
  assert (H : staleConfig = run initialConfig staleTrace) by reflexivity.
  split; [exact H|].
  destruct (generate_result_and_error staleConfig staleTrace H)
    as (_ & _ & Hok & _).
  destruct (Hok (ServiceReply 0 (JS.Fulfilled "QUJD"))
              "data:image/png;base64,QUJD")
    as (Hres & _ & [Hnone|[Herr Hup]]).
  - vm_compute. reflexivity.
  - exfalso. vm_compute in Hnone. discriminate Hnone.
  - split; [exact Hres|]. split; [exact Herr | exact Hup].
Defined.

End GenerateLifecycle.

Section InFlight.

(** C4. After every sequence of events, [isLoading] is true exactly when a
    request is in flight, that is when a continuation of [handleGenerate] is
    pending between its dispatch and its resolution; there is never more than
    one. *)
Theorem loading_iff_in_flight (es : list Event) :
  (isLoading (state (run initialConfig es)) = true <->
   inFlight (run initialConfig es) = 1) /\
  (isLoading (state (run initialConfig es)) = false <->
   inFlight (run initialConfig es) = 0).
Proof.
  pose proof (Invariant_run initialConfig es Invariant_initial) as [Hf _ _].
  rewrite Hf.
  destruct (isLoading (state (run initialConfig es)));
    repeat split; intros; try reflexivity; discriminate.
Qed.

(** C5. Whatever resolves the request in flight (the read of the file
    fails, the call fails, the call succeeds), [isLoading] is false
    afterwards: the [finally] block runs on every path. *)
Theorem resolution_clears_loading (c : Config) (e : Event)
    (r : JS.Settled string) :
  resolution c e = Some r -> isLoading (state (step c e)) = false.
Proof.
  intros He. destruct e as [file|text| | |i ok|i reply];
    cbn [resolution] in He; try discriminate.
  - destruct ok; [discriminate|].
    destruct (nth_error (pending c) i) as [[f|f text|mime]|] eqn:Hi;
      try discriminate.
    cbn [step]. rewrite Hi. reflexivity.
  - destruct (nth_error (pending c) i) as [[f|f text|mime]|] eqn:Hi;
      try discriminate.
    cbn [step]. rewrite Hi. destruct reply; reflexivity.
Qed.

Lemma resolution_clears_loading_witness :
  resolution callingConfig (ServiceReply 0 JS.Rejected) = Some JS.Rejected /\
  isLoading (state callingConfig) = true /\
  isLoading (state (step callingConfig (ServiceReply 0 JS.Rejected))) = false.
Proof.
  split; [vm_compute; reflexivity|]. split; [vm_compute; reflexivity|].
  apply (resolution_clears_loading callingConfig (ServiceReply 0 JS.Rejected)
           JS.Rejected).
  vm_compute. reflexivity.
Defined.

(** The same for a run with no other event in between, on its three
    outcomes. *)
Lemma generateRun_clears_loading (c : Config) (f : File) (ok : bool)
    (reply : JS.Settled string) :
  originalFile (state c) = Some f -> prompt (state c) <> "" ->
  isLoading (state (generateRun ok reply c)) = false.
Proof.
  intros Hf Hp. destruct ok.
  - rewrite (generateRun_read_ok c f reply Hf Hp). now destruct reply.
  - now rewrite (generateRun_read_failed c f reply Hf Hp).
Qed.

End InFlight.

(* ===================================================================== *)
(** ** The session: Start Over and image selection                        *)
(* ===================================================================== *)

Section ResetAndSelect.

(** C6. From any state, Start Over clears the displayed image, the selected
    file, the prompt, the result and the error, and the page is back to the
    uploader (the empty session). *)
Theorem startOver_clears (s : State) :
  originalImage (startOver s) = None /\
  originalFile (startOver s) = None /\
  prompt (startOver s) = "" /\
  editedImage (startOver s) = None /\
  error (startOver s) = None /\
  uploaderShown (startOver s) = true.
Proof. repeat split. Qed.

(** The click reaches the handler whenever the button is on the page. *)
Lemma reset_click (c : Config) :
  uploaderShown (state c) = false ->
  step c Reset = withState startOver c.
Proof. intros H. cbn [step]. now rewrite H. Qed.

(** Start Over does not touch the in-flight flag. *)
Lemma startOver_keeps_loading (s : State) :
  isLoading (startOver s) = isLoading s.
Proof. reflexivity. Qed.

(** The rejection handler of [handleImageUpload] sets the error and nothing
    else. *)
Lemma upload_read_failure_step (c : Config) (i : nat) (f : File) :
  nth_error (pending c) i = Some (UploadReading f) ->
  step c (FileRead i false) =
    {| state := setError (Some uploadFailedMessage) (state c);
       pending := removeAt i (pending c);
       calls := calls c |}.
Proof. intros Hi. cbn [step]. now rewrite Hi. Qed.

(** C7, counterexample. After a read error the unreadable file is still the
    selected file; and when the error arrives late, the displayed image and
    the prompt are still there too. *)
Lemma read_error_clears_nothing :
  (error (state failedUploadConfig) = Some uploadFailedMessage /\
   originalFile (state failedUploadConfig) = Some gif) /\
  (error (state lateFailureConfig) = Some uploadFailedMessage /\
   originalFile (state lateFailureConfig) = Some gif /\
   originalImage (state lateFailureConfig) = Some (readAsDataURL png) /\
   prompt (state lateFailureConfig) = "add a hat").
Proof. repeat apply conj; vm_compute; reflexivity. Qed.

(** C7, as amended. When the read of a selected file fails, the error
    message is set and nothing is cleared: every other cell (displayed
    image, recorded file, result, prompt, in-flight flag) is what it was just
    before the failure, and no call is made. When the failure comes right
    after the selection, this leaves the unreadable file recorded in
    [originalFile], the result absent as the selection left it, and the
    displayed image, the prompt and the flag as before the selection. *)
Theorem upload_read_failure_reports_error (c : Config) (i : nat) (f : File) :
  nth_error (pending c) i = Some (UploadReading f) ->
  step c (FileRead i false) =
    {| state :=
         {| originalImage := originalImage (state c);
            originalFile := originalFile (state c);
            editedImage := editedImage (state c);
            prompt := prompt (state c);
            isLoading := isLoading (state c);
            error := Some uploadFailedMessage |};
       pending := removeAt i (pending c);
       calls := calls c |} /\
  forall c0,
    state (step (handleImageUpload (Some f) c0)
                (FileRead (List.length (pending c0)) false)) =
      {| originalImage := originalImage (state c0);
         originalFile := Some f;
         editedImage := None;
         prompt := prompt (state c0);
         isLoading := isLoading (state c0);
         error := Some uploadFailedMessage |}.
Proof.
  intros Hi. split.
  - now rewrite (upload_read_failure_step c i f Hi).
  - intros c0. rewrite (upload_read_failure_step _ _ f); [reflexivity|].
    cbn [handleImageUpload pending]. apply nth_error_snoc.
Qed.

Lemma upload_read_failure_reports_error_witness :
  nth_error (pending (step lateFailureBefore (FileRead 0 true))) 0 =
    Some (UploadReading gif) /\
  state (run lateFailureBefore [FileRead 0 true; FileRead 0 false]) =
    {| originalImage := Some (readAsDataURL png);
       originalFile := Some gif;
       editedImage := None;
       prompt := "";
       isLoading := false;
       error := Some uploadFailedMessage |}.
Proof.
  assert (Hi : nth_error (pending (step lateFailureBefore (FileRead 0 true)))
                 0 = Some (UploadReading gif)) by (vm_compute; reflexivity).
  split; [exact Hi|].
  destruct (upload_read_failure_reports_error _ 0 gif Hi) as [Hstep _].
  change (run lateFailureBefore [FileRead 0 true; FileRead 0 false])
    with (step (step lateFailureBefore (FileRead 0 true)) (FileRead 0 false)).
  rewrite Hstep. vm_compute. reflexivity.
Defined.

(** C10. [handleImageUpload] never changes the prompt: selecting a file
    clears result and error and records the file, and the displayed image
    follows when the read completes; the prompt is the same before the
    selection, after it, and after the read has settled either way. *)
Theorem handleImageUpload_preserves_prompt (c : Config) (f : File) :
  state (handleImageUpload (Some f) c) =
    {| originalImage := originalImage (state c);
       originalFile := Some f;
       editedImage := None;
       prompt := prompt (state c);
       isLoading := isLoading (state c);
       error := None |} /\
  state (step (handleImageUpload (Some f) c)
              (FileRead (List.length (pending c)) true)) =
    {| originalImage := Some (readAsDataURL f);
       originalFile := Some f;
       editedImage := None;
       prompt := prompt (state c);
       isLoading := isLoading (state c);
       error := None |} /\
  prompt (state (step (handleImageUpload (Some f) c)
                      (FileRead (List.length (pending c)) false))) =
    prompt (state c) /\
  prompt (state (handleImageUpload None c)) = prompt (state c).
Proof.
  split; [reflexivity|]. split; [|split; [|reflexivity]].
  - cbn [step handleImageUpload pending]. rewrite nth_error_snoc. reflexivity.
  - rewrite (upload_read_failure_step _ _ f); [reflexivity|].
    cbn [handleImageUpload pending]. apply nth_error_snoc.
Qed.

End ResetAndSelect.

(* ===================================================================== *)
(** ** The encoder                                                        *)
(* ===================================================================== *)

Section Encoder.

(** C8. The encoder round-trips: for every file, [fileToBase64] resolves
    with the data-URL header followed by a text whose decoding is exactly the
    bytes of the file. *)
Theorem fileToBase64_roundtrip (file : File) :
  exists text,
    fileToBase64 file true =
      JS.Fulfilled ("data:" ++ type file ++ ";base64," ++ text) /\
    Base64.decode text = Some (content file).
Proof.
  exists (Base64.encode (content file)). split.
  - reflexivity.
  - apply Base64Facts.decode_encode.
Qed.

End Encoder.

(* ===================================================================== *)
(** ** Calls to the edit service                                          *)
(* ===================================================================== *)

Section ServiceCalls.

(** C9, counterexample. With an image and a prompt in place
    [handleGenerate] passes its guard; the read of the file fails, the run
    ends, and no call was made. *)
Lemma read_failure_makes_no_call :
  originalFile (state readyConfig) = Some png /\
  prompt (state readyConfig) = "add a hat" /\
  pending (handleGenerate readyConfig) = [GenerateReading png "add a hat"] /\
  run readyConfig [Generate; FileRead 0 false] =
    generateRun false JS.Rejected readyConfig /\
  pending (generateRun false JS.Rejected readyConfig) = [] /\
  isLoading (state (generateRun false JS.Rejected readyConfig)) = false /\
  calls (generateRun false JS.Rejected readyConfig) = [].
Proof. repeat apply conj; vm_compute; reflexivity. Qed.

(** A single event adds a call only when it is the successful read awaited
    by [handleGenerate]; the settling of the call itself never adds one. *)
Lemma step_calls (c : Config) (e : Event) :
  calls (step c e) =
    match e with
    | FileRead i true =>
        match nth_error (pending c) i with
        | Some (GenerateReading f text) =>
            (calls c ++ [ {| base64Data := base64Of (readAsDataURL f);
                             mimeType := type f;
                             callPrompt := text |} ])%list
        | _ => calls c
        end
    | _ => calls c
    end.
Proof.
  destruct e as [file|text| | |i ok|i reply]; cbn [step].
  - destruct (uploaderShown (state c)); [|reflexivity].
    now destruct file.
  - now destruct (_ && _).
  - destruct (_ && _); [|reflexivity]. unfold handleGenerate.
    destruct (originalFile (state c)); [|reflexivity].
    now destruct (negb _).
  - now destruct (negb _).
  - destruct (nth_error (pending c) i) as [[f|f text|mime]|];
      destruct ok; reflexivity.
  - destruct (nth_error (pending c) i) as [[f|f text|mime]|];
      try reflexivity.
    now destruct reply.
Qed.

(** C9, as amended. A run of [handleGenerate] past its guard makes at most
    one call to the edit service: exactly one, with the Base64 text, the
    media type and the prompt, when the file is encoded, and none when the
    encoding fails. Neither a failure nor a success of the call leads to
    another call, and the run leaves no continuation behind. *)
Theorem generate_calls_service_at_most_once (c : Config) (f : File)
    (ok : bool) (reply : JS.Settled string) :
  originalFile (state c) = Some f -> prompt (state c) <> "" ->
  calls (generateRun ok reply c) =
    (calls c ++
     if ok then [ {| base64Data := base64Of (readAsDataURL f);
                     mimeType := type f;
                     callPrompt := prompt (state c) |} ]
     else [])%list /\
  pending (generateRun ok reply c) = pending c.
Proof.
  intros Hf Hp. destruct ok.
  - rewrite (generateRun_read_ok c f reply Hf Hp). split; reflexivity.
  - rewrite (generateRun_read_failed c f reply Hf Hp). cbn [calls pending].
    now rewrite app_nil_r.
Qed.

Lemma generate_calls_service_at_most_once_witness :
  originalFile (state readyConfig) = Some png /\
  prompt (state readyConfig) <> "" /\
  calls (generateRun true JS.Rejected readyConfig) =
    [ {| base64Data := Some "iVBORw=="; mimeType := "image/png";
         callPrompt := "add a hat" |} ] /\
  pending (generateRun true JS.Rejected readyConfig) = [].
Proof.
  assert (Hf : originalFile (state readyConfig) = Some png)
    by (vm_compute; reflexivity).
  assert (Hp : prompt (state readyConfig) <> "")
    by (vm_compute; discriminate).
  split; [exact Hf|]. split; [exact Hp|].
  pose proof (generate_calls_service_at_most_once readyConfig png true
                JS.Rejected Hf Hp) as [Hcalls Hpending].
  split; [|exact Hpending].
  rewrite Hcalls. vm_compute. reflexivity.
Defined.

End ServiceCalls.

(* ===================================================================== *)
(** ** The rendered page                                                  *)
(* ===================================================================== *)

Section Rendering.

(** X1. In every state the output box shows something; the placeholder is
    there exactly when it is alone; the spinner and the edited image are
    never there together. *)
Theorem outputPanel_never_empty (s : State) :
  outputPanel s <> [] /\
  (In Placeholder (outputPanel s) <-> outputPanel s = [Placeholder]) /\
  (In LoadingSpinner (outputPanel s) ->
   forall src, ~ In (EditedImg src) (outputPanel s)).
Proof.
  unfold outputPanel.
  destruct s as [oi ofile [src|] p [|] [m|]];
    cbn [isLoading error editedImage JS.truthy negb andb app];
    try destruct (JS.truthy_string m); try destruct (JS.truthy_string src);
    cbn [negb andb app];
    (split; [discriminate|]);
    (split;
     [split; intros H;
      [cbn in H; intuition discriminate
      |first [discriminate H | now left]]
     |intros H q Hq; cbn in H, Hq; intuition discriminate]).
Qed.

(** X2. The generate button, when rendered, is enabled only with the
    textarea enabled, the label "Generate" and a prompt that is not empty;
    and the label "Generating..." goes with both controls disabled. *)
Theorem leftPanel_controls (s : State) (src value label : string)
    (promptDisabled generateDisabled : bool) :
  leftPanel s = Controls src value promptDisabled generateDisabled label ->
  originalImage s = Some src /\ value = prompt s /\
  (generateDisabled = false ->
     promptDisabled = false /\ label = "Generate" /\ value <> "") /\
  (label = "Generating..." ->
     promptDisabled = true /\ generateDisabled = true).
Proof.
  unfold leftPanel, isGenerateDisabled.
  destruct (originalImage s) as [img|]; [|discriminate].
  destruct (JS.truthy_string img); [|discriminate].
  intros [= <- <- <- <- <-].
  split; [reflexivity|]. split; [reflexivity|].
  destruct (isLoading s); cbn [orb].
  - split; [discriminate|]. now split.
  - split; [|discriminate].
    destruct (prompt s); cbn; [discriminate|].
    intros _. repeat split. discriminate.
Qed.

Lemma leftPanel_controls_witness :
  leftPanel (state readyConfig) =
    Controls "data:image/png;base64,iVBORw==" "add a hat" false false
      "Generate" /\
  originalImage (state readyConfig) = Some "data:image/png;base64,iVBORw==".
Proof.
  assert (H : leftPanel (state readyConfig) =
              Controls "data:image/png;base64,iVBORw==" "add a hat" false
                false "Generate") by (vm_compute; reflexivity).
  split; [exact H|].
  exact (proj1 (leftPanel_controls _ _ _ _ _ _ H)).
Defined.

End Rendering.

(* ===================================================================== *)
(** ** What one event can change                                          *)
(* ===================================================================== *)

Section Frames.

(** X3. A click on the enabled generate button dispatches a request when a
    file is recorded (flag up, result and error cleared, one continuation
    more, no call yet) and does nothing at all when [originalFile] is null,
    although the button is enabled. *)
Theorem generate_click_enabled (c : Config) :
  isGenerateDisabled (state c) = false ->
  step c Generate =
    match originalFile (state c) with
    | Some f =>
        {| state := setEditedImage None
                      (setError None (setIsLoading true (state c)));
           pending :=
             (pending c ++ [GenerateReading f (prompt (state c))])%list;
           calls := calls c |}
    | None => c
    end.
Proof.
  intros H. cbn [step]. rewrite H. unfold isGenerateDisabled in H.
  apply orb_false_iff in H as [H Himg]. apply orb_false_iff in H as [_ Hp].
  unfold uploaderShown. rewrite Himg. cbn [negb andb].
  unfold handleGenerate. rewrite Hp.
  now destruct (originalFile (state c)).
Qed.

Lemma generate_click_enabled_witness :
  isGenerateDisabled (state readyConfig) = false /\
  pending (step readyConfig Generate) = [GenerateReading png "add a hat"].
Proof.
  assert (H : isGenerateDisabled (state readyConfig) = false)
    by (vm_compute; reflexivity).
  split; [exact H|].
  rewrite (generate_click_enabled readyConfig H). vm_compute. reflexivity.
Defined.

(** X4. The prompt changes in two ways only: by typing in the textarea
    while it is rendered and enabled, and by Start Over, which empties it.
    In particular it cannot be edited while a request is in flight. *)
Theorem step_prompt (c : Config) (e : Event) :
  prompt (state (step c e)) =
    match e with
    | EditPrompt text =>
        if negb (uploaderShown (state c)) && negb (isLoading (state c))
        then text else prompt (state c)
    | Reset =>
        if negb (uploaderShown (state c)) then "" else prompt (state c)
    | _ => prompt (state c)
    end.
Proof.
  destruct e as [file|text| | |i ok|i reply]; cbn [step].
  - destruct (uploaderShown (state c)); [|reflexivity]. now destruct file.
  - now destruct (_ && _).
  - destruct (_ && _); [|reflexivity]. unfold handleGenerate.
    destruct (originalFile (state c)); [|reflexivity].
    now destruct (negb _).
  - now destruct (negb _).
  - destruct (nth_error (pending c) i) as [[f|f text|mime]|];
      destruct ok; reflexivity.
  - destruct (nth_error (pending c) i) as [[f|f text|mime]|];
      try reflexivity.
    now destruct reply.
Qed.

(** X5. [isLoading] goes up only by a click on the generate button and
    comes down only by the resolution of the request in flight. *)
Theorem step_isLoading (c : Config) (e : Event) :
  (isLoading (state c) = false -> isLoading (state (step c e)) = true ->
   e = Generate) /\
  (isLoading (state c) = true -> isLoading (state (step c e)) = false ->
   resolution c e <> None).
Proof.
  destruct e as [file|text| | |i ok|i reply]; cbn [step resolution].
  - destruct (uploaderShown (state c)); [|split; congruence].
    destruct file; cbn; split; congruence.
  - destruct (_ && _); cbn; split; congruence.
  - split; [reflexivity|].
    destruct (_ && _); [|congruence]. unfold handleGenerate.
    destruct (originalFile (state c)); [|congruence].
    destruct (negb _); cbn; congruence.
  - destruct (negb _); cbn; split; congruence.
  - destruct (nth_error (pending c) i) as [[f|f text|mime]|];
      destruct ok; cbn; split; congruence.
  - destruct (nth_error (pending c) i) as [[f|f text|mime]|];
      try (split; congruence).
    destruct reply; cbn; split; congruence.
Qed.

End Frames.

(* ===================================================================== *)
(** ** Values of the cells along every session                            *)
(* ===================================================================== *)

Section Shapes.

Lemma Forall_removeAt {A : Type} (P : A -> Prop) (i : nat) (l : list A) :
  Forall P l -> Forall P (removeAt i l).
Proof.
  intros H. revert i. induction H as [|x l Hx Hl IH]; intros [|i];
    cbn [removeAt]; auto.
Qed.

Lemma Forall_replaceAt {A : Type} (P : A -> Prop) (i : nat) (y : A)
    (l : list A) :
  P y -> Forall P l -> Forall P (replaceAt i y l).
Proof.
  intros Hy H. revert i. induction H as [|x l Hx Hl IH]; intros [|i];
    cbn [replaceAt]; auto.
Qed.

Lemma Forall_snoc {A : Type} (P : A -> Prop) (l : list A) (x : A) :
  Forall P l -> P x -> Forall P (l ++ [x])%list.
Proof. intros Hl Hx. apply Forall_app. split; [exact Hl | now constructor]. Qed.

Lemma Forall_nth_error {A : Type} (P : A -> Prop) (l : list A) (i : nat)
    (x : A) :
  Forall P l -> nth_error l i = Some x -> P x.
Proof.
  intros H Hi. apply nth_error_In in Hi.
  exact (proj1 (Forall_forall P l) H x Hi).
Qed.

Lemma messages_differ : uploadFailedMessage <> generateFailedMessage.
Proof. discriminate. Qed.

Lemma Shape_initial : Shape initialConfig.
Proof.
  split; cbn.
  - now left.
  - discriminate.
  - now left.
  - now left.
  - constructor.
  - constructor.
Qed.

Lemma Shape_failed (c : Config) (l : list Task) :
  Invariant c -> Shape c -> isLoading (state c) = true ->
  Forall wellFormedTask l ->
  Shape {| state := generateFailed (state c); pending := l;
           calls := calls c |}.
Proof.
  intros Hinv [He Hf Hr Hi Hc Hp] Hl Hwf. split; cbn.
  - now right; right.
  - intros _. split; [reflexivity|]. now apply (inv_result c Hinv).
  - exact Hr.
  - exact Hi.
  - exact Hc.
  - exact Hwf.
Qed.

Lemma Shape_step (c : Config) (e : Event) :
  Invariant c -> Shape c -> Shape (step c e).
Proof.
  intros Hinv Hs. pose proof Hs as [He Hf Hr Hi Hc Hp].
  destruct e as [file|text| | |i ok|i reply]; cbn [step].
  - destruct (uploaderShown (state c)); [|exact Hs].
    destruct file as [f|]; [|exact Hs].
    split; cbn; try (now left); try assumption; try discriminate.
    apply Forall_snoc; [exact Hp | exact I].
  - destruct (_ && _); [|exact Hs]. now split.
  - destruct (_ && _); [|exact Hs]. unfold handleGenerate.
    destruct (originalFile (state c)) as [f|]; [|exact Hs].
    destruct (JS.truthy_string (prompt (state c))) eqn:Et; cbn [negb];
      [|exact Hs].
    split; cbn; try (now left); try assumption; try discriminate.
    apply Forall_snoc; [exact Hp|]. cbn. intros E. now rewrite E in Et.
  - destruct (negb _); [|exact Hs].
    split; cbn; try (now left); try assumption; discriminate.
  - destruct (nth_error (pending c) i) as [[f|f text|mime]|] eqn:Hn;
      try exact Hs.
    + destruct ok; split; cbn; try assumption;
        try (now apply Forall_removeAt).
      * right. now exists f.
      * right. now left.
      * intros E. discriminate E.
    + pose proof (Forall_nth_error _ _ _ _ Hp Hn) as Htext. cbn in Htext.
      destruct (pending_generate_loading c i _ Hinv Hn eq_refl) as [Hl _].
      destruct ok; cbn [fileToBase64 generateAfterRead].
      * split; cbn; try assumption.
        -- apply Forall_snoc; [exact Hc|]. now exists f, text.
        -- apply Forall_replaceAt; [exact I | exact Hp].
      * apply Shape_failed; try assumption. now apply Forall_removeAt.
  - destruct (nth_error (pending c) i) as [[f|f text|mime]|] eqn:Hn;
      try exact Hs.
    destruct (pending_generate_loading c i _ Hinv Hn eq_refl) as [Hl _].
    destruct reply as [b64|]; cbn [generateAfterCall].
    + split; cbn; try assumption.
      * intros E. destruct (Hf E) as [Hl' _]. congruence.
      * right. now exists mime, b64.
      * now apply Forall_removeAt.
    + apply Shape_failed; try assumption. now apply Forall_removeAt.
Qed.

Lemma Shape_run (c : Config) (es : list Event) :
  Invariant c -> Shape c -> Shape (run c es).
Proof.
  revert c. induction es as [|e es IH]; intros c Hinv Hs; [exact Hs|].
  cbn [run fold_left]. apply (IH (step c e)).
  - now apply Invariant_step.
  - now apply Shape_step.
Qed.

Lemma reachable_Shape (c : Config) : reachable c -> Shape c.
Proof.
  intros [es ->]. apply Shape_run; [apply Invariant_initial|].
  apply Shape_initial.
Qed.

End Shapes.

(* ===================================================================== *)
(** ** What the page shows along every session                            *)
(* ===================================================================== *)

Section ReachableDisplay.

Lemma data_url_truthy (mime rest : string) :
  JS.truthy_string ("data:" ++ mime ++ rest) = true.
Proof. reflexivity. Qed.

Lemma In_EditedImg (s : State) (src : string) :
  In (EditedImg src) (outputPanel s) <->
  editedImage s = Some src /\ JS.truthy_string src = true /\
  isLoading s = false.
Proof.
  unfold outputPanel. rewrite !in_app_iff. split.
  - intros [H|[H|[H|H]]].
    + destruct (isLoading s); cbn in H; intuition discriminate.
    + destruct (error s) as [m|]; [destruct (JS.truthy_string m)|];
        cbn in H; intuition discriminate.
    + destruct (editedImage s) as [img|]; [|contradiction].
      destruct (JS.truthy_string img) eqn:E, (isLoading s);
        cbn in H; try contradiction.
      destruct H as [[= ->]|[]]. auto.
    + destruct (_ && _); cbn in H; intuition discriminate.
  - intros (H1 & H2 & H3). right; right; left.
    rewrite H1, H2, H3. now left.
Qed.

Lemma In_ErrorMessage (s : State) (m : string) :
  In (ErrorMessage m) (outputPanel s) <->
  error s = Some m /\ JS.truthy_string m = true.
Proof.
  unfold outputPanel. rewrite !in_app_iff. split.
  - intros [H|[H|[H|H]]].
    + destruct (isLoading s); cbn in H; intuition discriminate.
    + destruct (error s) as [msg|]; [|contradiction].
      destruct (JS.truthy_string msg) eqn:E; cbn in H; try contradiction.
      destruct H as [[= ->]|[]]. auto.
    + destruct (editedImage s) as [img|]; [destruct (_ && _)|];
        cbn in H; intuition discriminate.
    + destruct (_ && _); cbn in H; intuition discriminate.
  - intros (H1 & H2). right; left. rewrite H1, H2. now left.
Qed.

(** X6. In every configuration the component reaches, what is set is what
    is shown: the edited image is displayed exactly when [editedImage] is
    set (the [!isLoading] test never hides a result), the error message
    exactly when [error] is set, and the uploader exactly when
    [originalImage] is null. *)
Theorem reachable_display (c : Config) :
  reachable c ->
  (forall src, In (EditedImg src) (outputPanel (state c)) <->
               editedImage (state c) = Some src) /\
  (forall m, In (ErrorMessage m) (outputPanel (state c)) <->
             error (state c) = Some m) /\
  (leftPanel (state c) = ImageUploader <-> originalImage (state c) = None).
Proof.
  intros Hc.
  pose proof (reachable_Invariant c Hc) as Hinv.
  pose proof (reachable_Shape c Hc) as [He Hf Hr Hi _ _].
  split; [|split].
  - intros src. rewrite In_EditedImg. split; [now intros [H _]|].
    intros H. split; [exact H|].
    destruct Hr as [Hr|(mime & b64 & Hr)]; [congruence|].
    rewrite H in Hr. injection Hr as ->.
    split; [apply data_url_truthy|].
    destruct (isLoading (state c)) eqn:El; [|reflexivity].
    rewrite (inv_result c Hinv El) in H. discriminate.
  - intros m. rewrite In_ErrorMessage. split; [now intros [H _]|].
    intros H. split; [exact H|].
    rewrite H in He.
    destruct He as [He|[He|He]]; try discriminate;
      injection He as ->; reflexivity.
  - unfold leftPanel.
    destruct Hi as [Hi|(f & Hi)]; rewrite Hi.
    + split; reflexivity.
    + unfold readAsDataURL. rewrite data_url_truthy.
      split; discriminate.
Qed.

Lemma reachable_display_witness :
  reachable staleConfig /\
  In (ErrorMessage uploadFailedMessage) (outputPanel (state staleConfig)).
Proof.
  assert (H : reachable staleConfig) by (exists staleTrace; reflexivity).
  split; [exact H|].
  apply (proj1 (proj2 (reachable_display staleConfig H))).
  vm_compute. reflexivity.
Defined.

(** X7. Along every session the error is one of the two messages of the
    component or absent, and the generate-failure message is never there
    together with a result or with a request in flight. *)
Theorem generate_failure_excludes_result (c : Config) :
  reachable c ->
  (error (state c) = None \/
   error (state c) = Some uploadFailedMessage \/
   error (state c) = Some generateFailedMessage) /\
  (error (state c) = Some generateFailedMessage ->
   isLoading (state c) = false /\ editedImage (state c) = None).
Proof.
  intros Hc. pose proof (reachable_Shape c Hc) as [He Hf _ _ _ _].
  split; assumption.
Qed.

Lemma generate_failure_excludes_result_witness :
  reachable (step callingConfig (ServiceReply 0 JS.Rejected)) /\
  error (state (step callingConfig (ServiceReply 0 JS.Rejected))) =
    Some generateFailedMessage /\
  isLoading (state (step callingConfig (ServiceReply 0 JS.Rejected))) = false /\
  editedImage (state (step callingConfig (ServiceReply 0 JS.Rejected))) = None.
Proof.
  assert (H : reachable (step callingConfig (ServiceReply 0 JS.Rejected))).
  { apply reachable_step. exists callingTrace. reflexivity. }
  assert (E : error (state (step callingConfig (ServiceReply 0 JS.Rejected)))
              = Some generateFailedMessage) by (vm_compute; reflexivity).
  split; [exact H|]. split; [exact E|].
  exact (proj2 (generate_failure_excludes_result _ H) E).
Defined.

End ReachableDisplay.

(* ===================================================================== *)
(** ** [split] and what is sent to the service                            *)
(* ===================================================================== *)

Section SplitAndPayload.

Lemma split_cons (sep c : ascii) (rest : string) :
  exists piece pieces,
    JS.split sep rest = piece :: pieces /\
    JS.split sep (String c rest) =
      if Ascii.eqb c sep then "" :: piece :: pieces
      else String c piece :: pieces.
Proof.
  assert (H : exists piece pieces, JS.split sep rest = piece :: pieces).
  { destruct rest as [|d rest]; cbn [JS.split]; [now eexists; eexists|].
    destruct (Ascii.eqb d sep); [now eexists; eexists|].
    destruct (JS.split sep rest); now eexists; eexists. }
  destruct H as (piece & pieces & H). exists piece, pieces.
  split; [exact H|]. cbn [JS.split]. now rewrite H.
Qed.

Lemma split_pieces_lack (sep : ascii) (s : string) :
  Forall (fun piece => lacks sep piece = true) (JS.split sep s).
Proof.
  induction s as [|c rest IH].
  - now repeat constructor.
  - destruct (split_cons sep c rest) as (piece & pieces & Hrest & Hs).
    rewrite Hs. rewrite Hrest in IH.
    destruct (Ascii.eqb c sep) eqn:E; [now constructor|].
    apply Forall_cons_iff in IH as [Hp Hps].
    constructor; [|exact Hps]. cbn [lacks]. now rewrite E, Hp.
Qed.

(** X8. [split] cuts at every separator and nowhere else: it returns at
    least one piece, no piece contains the separator, and the pieces joined
    by the separator are the string. *)
Theorem split_join (sep : ascii) (s : string) :
  JS.split sep s <> [] /\
  Forall (fun piece => lacks sep piece = true) (JS.split sep s) /\
  joinWith sep (JS.split sep s) = s.
Proof.
  split; [|split; [apply split_pieces_lack|]].
  - destruct s as [|c rest]; [discriminate|].
    destruct (split_cons sep c rest) as (piece & pieces & _ & ->).
    now destruct (Ascii.eqb c sep).
  - induction s as [|c rest IH]; [reflexivity|].
    destruct (split_cons sep c rest) as (piece & pieces & Hrest & Hs).
    rewrite Hs. rewrite Hrest in IH.
    destruct (Ascii.eqb c sep) eqn:E.
    + apply Ascii.eqb_eq in E. subst c.
      cbn [joinWith append]. cbn [joinWith] in IH. now rewrite IH.
    + destruct pieces as [|q pieces]; cbn [joinWith append] in *;
        now rewrite IH.
Qed.

Lemma lacks_comma (s : string) : lacks ","%char s = noComma s.
Proof.
  induction s as [|c rest IH]; [reflexivity|].
  cbn [lacks noComma]. now rewrite IH.
Qed.

(** X9. [split(',')[1]] is [undefined] when the string has no comma, and
    otherwise a piece free of commas: the text between the first comma and
    the second, or the end. *)
Theorem base64Of_piece (s : string) :
  (noComma s = true -> base64Of s = None) /\
  (forall text, base64Of s = Some text -> noComma text = true) /\
  (forall p q, noComma p = true -> noComma q = true ->
     base64Of (p ++ String ","%char q) = Some q).
Proof.
  split; [|split].
  - intros H. unfold base64Of. now rewrite split_noComma.
  - intros text H. unfold base64Of in H.
    pose proof (split_pieces_lack ","%char s) as Hall.
    apply nth_error_In in H.
    rewrite <- lacks_comma.
    exact (proj1 (Forall_forall _ _) Hall text H).
  - intros p q Hp Hq. unfold base64Of.
    rewrite (split_at_first_comma p q Hp), (split_noComma q Hq). reflexivity.
Qed.

(** X10. When the declared media type has no comma, the one call of a run
    of [handleGenerate] carries a text that decodes to the bytes of the
    selected file, with the media type of that file and the prompt of the
    moment of the click. *)
Theorem generate_sends_file_bytes (c : Config) (f : File)
    (reply : JS.Settled string) :
  originalFile (state c) = Some f -> prompt (state c) <> "" ->
  noComma (type f) = true ->
  exists text,
    calls (generateRun true reply c) =
      (calls c ++ [ {| base64Data := Some text; mimeType := type f;
                       callPrompt := prompt (state c) |} ])%list /\
    Base64.decode text = Some (content f).
Proof.
  intros Hf Hp Hty. exists (Base64.encode (content f)). split.
  - rewrite (generateRun_read_ok c f reply Hf Hp). cbn [calls].
    now rewrite (base64Of_readAsDataURL f Hty).
  - apply Base64Facts.decode_encode.
Qed.

Lemma generate_sends_file_bytes_witness :
  originalFile (state readyConfig) = Some png /\
  prompt (state readyConfig) <> "" /\
  noComma (type png) = true /\
  exists text,
    calls (generateRun true JS.Rejected readyConfig) =
      (calls readyConfig ++
       [ {| base64Data := Some text; mimeType := type png;
            callPrompt := prompt (state readyConfig) |} ])%list /\
    Base64.decode text = Some (content png).
Proof.
  assert (Hf : originalFile (state readyConfig) = Some png)
    by (vm_compute; reflexivity).
  assert (Hp : prompt (state readyConfig) <> "")
    by (vm_compute; discriminate).
  assert (Hty : noComma (type png) = true) by (vm_compute; reflexivity).
  split; [exact Hf|]. split; [exact Hp|]. split; [exact Hty|].
  exact (generate_sends_file_bytes readyConfig png JS.Rejected Hf Hp Hty).
Defined.



End SplitAndPayload.

(* ===================================================================== *)
(** ** Calls against clicks                                               *)
(* ===================================================================== *)

Section CallsAndClicks.

Lemma countReading_cons (t : Task) (l : list Task) :
  countReading (t :: l) =
  (if isReadingTask t then 1 else 0) + countReading l.
Proof.
  unfold countReading. cbn [filter]. now destruct (isReadingTask t).
Qed.

Lemma countReading_snoc (l : list Task) (t : Task) :
  countReading (l ++ [t])%list =
  countReading l + (if isReadingTask t then 1 else 0).
Proof.
  induction l as [|x l IH]; cbn [app]; rewrite !countReading_cons.
  - unfold countReading. cbn [filter List.length]. lia.
  - rewrite IH. lia.
Qed.

Lemma countReading_removeAt (l : list Task) (i : nat) (t : Task) :
  nth_error l i = Some t ->
  countReading l =
  countReading (removeAt i l) + (if isReadingTask t then 1 else 0).
Proof.
  revert i. induction l as [|x l IH]; intros [|i] H; try discriminate.
  - injection H as ->. cbn [removeAt]. rewrite countReading_cons. lia.
  - cbn [nth_error] in H. cbn [removeAt].
    rewrite !countReading_cons, (IH i H). lia.
Qed.

Lemma countReading_replaceAt (l : list Task) (i : nat) (t t' : Task) :
  nth_error l i = Some t ->
  countReading (replaceAt i t' l) + (if isReadingTask t then 1 else 0) =
  countReading l + (if isReadingTask t' then 1 else 0).
Proof.
  revert i. induction l as [|x l IH]; intros [|i] H; try discriminate.
  - injection H as ->. cbn [replaceAt]. rewrite !countReading_cons. lia.
  - cbn [nth_error] in H. cbn [replaceAt].
    rewrite !countReading_cons. specialize (IH i H). lia.
Qed.

(** One event: the calls made plus the runs still before their call grow by
    at most one, and only on a click. *)
Lemma step_budget (c : Config) (e : Event) :
  List.length (calls (step c e)) + countReading (pending (step c e)) <=
  List.length (calls c) + countReading (pending c)
  + (if isGenerateClick e then 1 else 0).
Proof.
  destruct e as [file|text| | |i ok|i reply]; cbn [step isGenerateClick].
  - destruct (uploaderShown (state c)); [|lia].
    destruct file; cbn [handleImageUpload calls pending]; [|lia].
    rewrite countReading_snoc. cbn. lia.
  - destruct (_ && _); cbn; lia.
  - destruct (_ && _); [|lia]. unfold handleGenerate.
    destruct (originalFile (state c)); [|lia].
    destruct (negb _); cbn [calls pending]; [lia|].
    rewrite countReading_snoc. cbn. lia.
  - destruct (negb _); cbn; lia.
  - destruct (nth_error (pending c) i) as [[f|f text|mime]|] eqn:Hi;
      try lia.
    + pose proof (countReading_removeAt _ _ _ Hi) as H. cbn in H.
      cbn [calls pending]. lia.
    + destruct ok; cbn [fileToBase64 generateAfterRead calls pending].
      * pose proof (countReading_replaceAt _ _ _ (GenerateCalling (type f))
                      Hi) as H.
        cbn in H. rewrite length_app. cbn [List.length]. lia.
      * pose proof (countReading_removeAt _ _ _ Hi) as H. cbn in H. lia.
  - destruct (nth_error (pending c) i) as [[f|f text|mime]|] eqn:Hi;
      try lia.
    pose proof (countReading_removeAt _ _ _ Hi) as H. cbn in H.
    destruct reply; cbn [generateAfterCall calls pending]; lia.
Qed.

Lemma run_budget (c : Config) (es : list Event) :
  List.length (calls (run c es)) + countReading (pending (run c es)) <=
  List.length (calls c) + countReading (pending c) + countClicks es.
Proof.
  revert c. induction es as [|e es IH]; intros c; [cbn; lia|].
  cbn [run fold_left]. fold (run (step c e) es).
  specialize (IH (step c e)). pose proof (step_budget c e) as H.
  unfold countClicks in *. cbn [filter].
  destruct (isGenerateClick e); cbn [List.length] in *; lia.
Qed.

(** X12. Whatever the user and the environment do, the service is never
    called more often than the generate button was clicked. *)
Theorem calls_bounded_by_clicks (es : list Event) :
  List.length (calls (run initialConfig es)) <= countClicks es.
Proof.
  pose proof (run_budget initialConfig es) as H.
  change (countReading (pending initialConfig)) with 0 in H.
  change (List.length (calls initialConfig)) with 0 in H.
  lia.
Qed.

End CallsAndClicks.

(* ===================================================================== *)
(** ** Whole sessions                                                     *)
(* ===================================================================== *)

Section Sessions.

Lemma nonempty_string (p : string) :
  p <> "" -> exists a rest, p = String a rest.
Proof. destruct p as [|a rest]; [congruence | now exists a, rest]. Qed.

(** X13. Start Over does not cancel a request in flight. The call is still
    made, with the file and the prompt captured at the click, and when the
    service answers the result lands on the emptied session: no image, no
    file, no prompt, and an edited image. *)
Theorem startOver_does_not_cancel (c : Config) (f : File) (b64 : string) :
  originalFile (state c) = Some f -> prompt (state c) <> "" ->
  let i := List.length (pending c) in
  let c' := step (step (withState startOver (handleGenerate c))
                       (FileRead i true))
                 (ServiceReply i (JS.Fulfilled b64)) in
  calls c' = (calls c ++ [callFor f (prompt (state c))])%list /\
  pending c' = pending c /\
  state c' =
    {| originalImage := None; originalFile := None;
       editedImage := Some ("data:" ++ type f ++ ";base64," ++ b64);
       prompt := ""; isLoading := false; error := None |}.
Proof.
  intros Hf Hp i c'. subst i c'.
  rewrite (handleGenerate_dispatch c f Hf Hp).
  unfold withState. cbn [step pending state calls].
  rewrite nth_error_snoc.
  cbn [fileToBase64 generateAfterRead pending state calls].
  rewrite replaceAt_snoc, nth_error_snoc.
  unfold generateAfterCall. cbn [pending state calls].
  rewrite removeAt_snoc. repeat split.
Qed.

Lemma startOver_does_not_cancel_witness :
  originalFile (state readyConfig) = Some png /\
  prompt (state readyConfig) <> "" /\
  editedImage
    (state (step (step (withState startOver (handleGenerate readyConfig))
                       (FileRead 0 true))
                 (ServiceReply 0 (JS.Fulfilled "QUJD")))) =
    Some "data:image/png;base64,QUJD".
Proof.
  assert (Hf : originalFile (state readyConfig) = Some png)
    by (vm_compute; reflexivity).
  assert (Hp : prompt (state readyConfig) <> "")
    by (vm_compute; discriminate).
  split; [exact Hf|]. split; [exact Hp|].
  destruct (startOver_does_not_cancel readyConfig png "QUJD" Hf Hp)
    as (_ & _ & Hstate).
  change (List.length (pending readyConfig)) with 0 in Hstate.
  rewrite Hstate. reflexivity.
Defined.

(** X14. The whole successful session, for any file, any prompt that is not
    empty and any answer of the service: select, read, type, click, encode,
    answer. It ends with the original and the edited image displayed, the
    flag down, no error, nothing pending and exactly one call made. *)
Theorem session_success (f : File) (p b64 : string) :
  p <> "" ->
  run initialConfig
    [SelectImage (Some f); FileRead 0 true; EditPrompt p; Generate;
     FileRead 0 true; ServiceReply 0 (JS.Fulfilled b64)] =
  {| state :=
       {| originalImage := Some (readAsDataURL f);
          originalFile := Some f;
          editedImage := Some ("data:" ++ type f ++ ";base64," ++ b64);
          prompt := p; isLoading := false; error := None |};
     pending := [];
     calls := [callFor f p] |}.
Proof.
  intros Hp. destruct (nonempty_string p Hp) as (a & rest & ->).
  reflexivity.
Qed.

Lemma session_success_witness :
  "add a hat" <> "" /\
  calls (run initialConfig
           [SelectImage (Some png); FileRead 0 true; EditPrompt "add a hat";
            Generate; FileRead 0 true; ServiceReply 0 (JS.Fulfilled "QUJD")])
  = [callFor png "add a hat"].
Proof.
  assert (Hp : "add a hat" <> "") by discriminate.
  split; [exact Hp|].
  now rewrite (session_success png "add a hat" "QUJD" Hp).
Defined.

(** X15. The same session when the request fails, either at the encoding of
    the file (no call made) or at the service (one call made): it ends with
    the generate-failure message, no result, the flag down, and the button
    enabled again for another attempt. *)
Theorem session_failure (f : File) (p : string) (encoded : bool) :
  p <> "" ->
  let c := run initialConfig
             [SelectImage (Some f); FileRead 0 true; EditPrompt p; Generate;
              FileRead 0 encoded; ServiceReply 0 JS.Rejected] in
  state c =
    {| originalImage := Some (readAsDataURL f);
       originalFile := Some f;
       editedImage := None;
       prompt := p; isLoading := false;
       error := Some generateFailedMessage |} /\
  pending c = [] /\
  calls c = (if encoded then [callFor f p] else []) /\
  isGenerateDisabled (state c) = false.
Proof.
  intros Hp. destruct (nonempty_string p Hp) as (a & rest & ->).
  destruct encoded; repeat split.
Qed.

Lemma session_failure_witness :
  "add a hat" <> "" /\
  calls (run initialConfig
           [SelectImage (Some png); FileRead 0 true; EditPrompt "add a hat";
            Generate; FileRead 0 false; ServiceReply 0 JS.Rejected]) = [].
Proof.
  assert (Hp : "add a hat" <> "") by discriminate.
  split; [exact Hp|].
  exact (proj1 (proj2 (proj2 (session_failure png "add a hat" false Hp)))).
Defined.

End Sessions.

Section SelectionOrder.

(** X16. Two files selected in a row while the uploader is still on the
    page: the file recorded for the request is the one selected last, the
    image displayed is the one whose read finished last. When the first
    read finishes last, the page shows the first file and a click on
    generate sends the second. *)
Theorem selection_race (f g : File) (p : string) :
  p <> "" ->
  let c := run initialConfig
             [SelectImage (Some f); SelectImage (Some g);
              FileRead 1 true; FileRead 0 true] in
  originalImage (state c) = Some (readAsDataURL f) /\
  originalFile (state c) = Some g /\
  pending c = [] /\
  calls (run c [EditPrompt p; Generate; FileRead 0 true]) = [callFor g p].
Proof.
  intros Hp. destruct (nonempty_string p Hp) as (a & rest & ->).
  repeat split.
Qed.

Lemma selection_race_witness :
  "add a hat" <> "" /\
  originalFile
    (state (run initialConfig
              [SelectImage (Some png); SelectImage (Some gif);
               FileRead 1 true; FileRead 0 true])) = Some gif.
Proof.
  assert (Hp : "add a hat" <> "") by discriminate.
  split; [exact Hp|].
  exact (proj1 (proj2 (selection_race png gif "add a hat" Hp))).
Defined.

End SelectionOrder.
